(** * Template-driven journal expansion and posting: a shallow embedding

    The development follows the Python core under
    [src/enhanced_system/python]:

    - [expr.py]      : [to_polars], the expression compiler;
    - [templates.py] : [load_active_template], template resolution;
    - [engine.py]    : [expand_transactions], the expansion;
    - [db.py]        : [copy_from_polars];
    - [posting.py]   : [post_to_ledger];
    - [balances.py]  : [update_month_balance];
    - [staging.py]   : [stage_to_db];
    - [run_month.py] : [load_txn_for_month] and [run_pipeline];
    - [seed_txn_source.py] : the month window of the seed.

    Python strings are [string]s (a character is its code point, below 256),
    the batch of transactions is the list of its rows, a frame the code only
    selects from is its columns by name, the amounts of the source table are
    rationals ([Q]), database tables are lists of records, and a raised
    exception is the [Raise] branch of [result]. *)

From Stdlib Require Import Strings.String Strings.Ascii Lists.List Bool.Bool.
From Stdlib Require Import Arith.PeanoNat ZArith.ZArith QArith.QArith.
From Stdlib Require Import micromega.Lia Sorting.Permutation Sorting.Sorted.
Import ListNotations.

Set Warnings "-register-all".

Open Scope string_scope.
Open Scope list_scope.

(** ** Exceptions and results *)

(** The exceptions met below, one constructor per raising site. *)
Inductive exn : Type :=
| ValueError_illegal_characters          (* expr.py, line 20 *)
| KeyError_unknown_column (name : string) (* expr.py, line 29 *)
| ValueError_failed_to_parse             (* expr.py, line 49 *)
| RuntimeError_no_active_template        (* templates.py, line 21 *)
| ValueError_unbalanced_je               (* engine.py, line 110 *)
| PolarsError (what : string)            (* raised inside a Polars call *)
| ValueError_date                        (* datetime.date: year or month out of range *)
| ProgrammingError_copy                  (* psycopg: a COPY statement given to execute *)
| DbError (sqlstate : string).           (* raised by the database *)

(** The spec's names for the four errors of the core. *)
Definition IllegalExpressionError : exn := ValueError_illegal_characters.
Definition UnknownFieldError (name : string) : exn := KeyError_unknown_column name.
Definition NoActiveTemplateError : exn := RuntimeError_no_active_template.
Definition UnbalancedJournalError : exn := ValueError_unbalanced_je.

Inductive result (A : Type) : Type :=
| Ok (a : A)
| Raise (e : exn).
Arguments Ok {A} a.
Arguments Raise {A} e.

Definition bind {A B : Type} (r : result A) (k : A -> result B) : result B :=
  match r with
  | Ok a => k a
  | Raise e => Raise e
  end.

Declare Scope result_scope.
Delimit Scope result_scope with result.
Notation "'do' x <- r ; k" := (bind r (fun x => k))
  (at level 10, x name, r at level 100, k at level 200) : result_scope.
Notation "'do' ' p <- r ; k" := (bind r (fun p => k))
  (at level 10, p pattern, r at level 100, k at level 200) : result_scope.
Open Scope result_scope.

Definition is_ok {A : Type} (r : result A) : bool :=
  match r with Ok _ => true | Raise _ => false end.

(** A Python call that either returns or raises [e]. *)
Definition or_raise {A : Type} (e : exn) (o : option A) : result A :=
  match o with Some a => Ok a | None => Raise e end.

Fixpoint mapM {A B : Type} (f : A -> result B) (l : list A) : result (list B) :=
  match l with
  | [] => Ok []
  | a :: l' => do b <- f a; do bs <- mapM f l'; Ok (b :: bs)
  end.

(** ** [ORDER BY] and [sort]: a stable insertion sort *)

Section Sort.
Variable A : Type.
Variable le : A -> A -> bool.

Fixpoint insert_by (x : A) (l : list A) : list A :=
  match l with
  | [] => [x]
  | y :: l' => if le x y then x :: l else y :: insert_by x l'
  end.

Fixpoint order_by (l : list A) : list A :=
  match l with
  | [] => []
  | x :: l' => insert_by x (order_by l')
  end.

(** The first row is not after any row. *)
Definition head_first (l : list A) : Prop :=
  match l with
  | [] => True
  | h :: _ => forall y, In y l -> le h y = true
  end.

End Sort.
Arguments insert_by {A} le x l.
Arguments order_by {A} le l.
Arguments head_first {A} le l.

(** ** expr.py *)

Module Expr.

(** *** Character classes of the two regular expressions *)

Definition in_range (lo hi : nat) (c : ascii) : bool :=
  let n := nat_of_ascii c in (lo <=? n)%nat && (n <=? hi)%nat.

Definition is_digit (c : ascii) : bool := in_range 48 57 c.
Definition is_alpha (c : ascii) : bool := in_range 65 90 c || in_range 97 122 c.
Definition is_underscore (c : ascii) : bool := Ascii.eqb c "_".
Definition is_colon (c : ascii) : bool := Ascii.eqb c ":".

(** [str.isspace] and the class [\s] of a [str] pattern, on the code points
    below 256: TAB..CR, FS..US, space, NEL and NBSP. *)
Definition is_space (c : ascii) : bool :=
  in_range 9 13 c || in_range 28 32 c
  || (nat_of_ascii c =? 133)%nat || (nat_of_ascii c =? 160)%nat.

(** One character of [[0-9\.\s\+\-\*\/\(\),:_a-zA-Z]]. *)
Definition allowed_char (c : ascii) : bool :=
  is_digit c || Ascii.eqb c "." || is_space c
  || Ascii.eqb c "+" || Ascii.eqb c "-" || Ascii.eqb c "*" || Ascii.eqb c "/"
  || Ascii.eqb c "(" || Ascii.eqb c ")" || Ascii.eqb c ","
  || is_colon c || is_underscore c || is_alpha c.

(** [[a-zA-Z_]] and [[a-zA-Z0-9_]] of [TOKEN]. *)
Definition is_ident_start (c : ascii) : bool := is_alpha c || is_underscore c.
Definition is_ident_char (c : ascii) : bool := is_alpha c || is_digit c || is_underscore c.

Fixpoint forallb_string (p : ascii -> bool) (s : string) : bool :=
  match s with
  | EmptyString => true
  | String c r => p c && forallb_string p r
  end.

Definition is_empty (s : string) : bool :=
  match s with EmptyString => true | String _ _ => false end.

(** *** [str.strip] *)

Fixpoint lstrip (s : string) : string :=
  match s with
  | EmptyString => EmptyString
  | String c r => if is_space c then lstrip r else s
  end.

Fixpoint rstrip (s : string) : string :=
  match s with
  | EmptyString => EmptyString
  | String c r =>
      let r' := rstrip r in
      if is_space c && is_empty r' then EmptyString else String c r'
  end.

Definition strip (s : string) : string := rstrip (lstrip s).

(** [re.fullmatch(r"[...]+", s)]: one or more characters, all of the class. *)
Definition fullmatch_allowed (s : string) : bool :=
  negb (is_empty s) && forallb_string allowed_char s.

(** *** [TOKEN.finditer]

    The scan cuts [s] into the text between matches and the matches of
    [TOKEN] (a colon, one character of [is_ident_start], then characters of
    [is_ident_char]), left to right, each match as long as it can be; a piece
    [Ref name] is one match with [name] its group 1. *)

Inductive piece : Type :=
| Text (t : string)
| Ref (name : string).

Definition starts_ident (s : string) : bool :=
  match s with
  | String c _ => is_ident_start c
  | EmptyString => false
  end.

Definition cons_text (c : ascii) (ps : list piece) : list piece :=
  match ps with
  | Text t :: ps' => Text (String c t) :: ps'
  | _ => Text (String c EmptyString) :: ps
  end.

Fixpoint outside (s : string) {struct s} : list piece :=
  match s with
  | EmptyString => []
  | String c r =>
      if is_colon c && starts_ident r then inside EmptyString r
      else cons_text c (outside r)
  end
with inside (acc : string) (s : string) {struct s} : list piece :=
  match s with
  | EmptyString => [Ref acc]
  | String c r =>
      if is_ident_char c then inside (acc ++ String c EmptyString) r
      else Ref acc ::
           (if is_colon c && starts_ident r then inside EmptyString r
            else cons_text c (outside r))
  end.

Definition finditer (s : string) : list piece := outside s.

(** The names the expression refers to: group 1 of every match. *)
Fixpoint field_refs (ps : list piece) : list string :=
  match ps with
  | [] => []
  | Text _ :: ps' => field_refs ps'
  | Ref n :: ps' => n :: field_refs ps'
  end.

(** The source text a piece stands for. *)
Definition piece_source (p : piece) : string :=
  match p with
  | Text t => t
  | Ref n => String ":" n
  end.

Fixpoint concat_strings (l : list string) : string :=
  match l with
  | [] => EmptyString
  | s :: l' => (s ++ concat_strings l')%string
  end.

(** [name in df_cols]. *)
Definition mem (name : string) (df_cols : list string) : bool :=
  existsb (String.eqb name) df_cols.

(** The loop of lines 25-31: text is copied, a reference becomes
    [pl.col('name')], an unknown name raises [KeyError]. *)
Definition render (df_cols : list string) (p : piece) : result string :=
  match p with
  | Text t => Ok t
  | Ref name =>
      if mem name df_cols then Ok ("pl.col('" ++ name ++ "')")%string
      else Raise (KeyError_unknown_column name)
  end.

Definition substitute (df_cols : list string) (ps : list piece) : result string :=
  do parts <- mapM (render df_cols) ps; Ok (concat_strings parts).

(** *** [str.replace] and [re.sub] of a literal pattern

    Occurrences are replaced left to right without overlap; [skip] counts the
    characters of the occurrence just replaced that are still to be passed. *)
Fixpoint replace_from (old new : string) (skip : nat) (s : string) : string :=
  match s with
  | EmptyString => EmptyString
  | String c r =>
      match skip with
      | S k => replace_from old new k r
      | O =>
          if prefix old s
          then (new ++ replace_from old new (String.length old - 1) r)%string
          else String c (replace_from old new 0 r)
      end
  end.

Definition replace (old new s : string) : string := replace_from old new 0 s.

(** Lines 36-43. *)
Definition map_functions (code : string) : string :=
  let code := replace "abs(" "pl.abs(" code in
  let code := replace "min(" "pl.min_horizontal(" code in
  let code := replace "max(" "pl.max_horizontal(" code in
  replace "round(" "pl.round(" code.

Section ToPolars.

(** What [eval] returns, and [eval(code, {"pl": pl}, {})] itself: [None] when
    it raises. Python's evaluator is not part of the repository. *)
Variable pyobj : Type.
Variable py_eval : string -> option pyobj.

(** The text handed to [eval]. *)
Definition code_of (expr : string) (df_cols : list string) : result string :=
  let s := strip expr in
  if negb (fullmatch_allowed s) then Raise ValueError_illegal_characters
  else
    do code <- substitute df_cols (finditer s);
    Ok (map_functions code).

Definition to_polars (expr : string) (df_cols : list string) : result pyobj :=
  do code <- code_of expr df_cols;
  or_raise ValueError_failed_to_parse (py_eval code).

End ToPolars.

End Expr.

(** ** A model of [eval] on the expressions the compiler is meant for

    [to_polars] is parametric in Python's evaluator. [PyModel.py_eval] is the
    instance the examples run: Python's expression syntax restricted to
    numbers, names, quoted strings, attribute access, calls, unary and binary
    [+ - * /] and parentheses, evaluated in the namespace [{"pl": pl}]. On a
    text outside this fragment it answers [None] and says nothing about
    Python. *)

Module PyModel.

Inductive binop : Type := Add | Sub | Mul | Div | BitAnd.

(** A Polars expression object ([pl.Expr]), as the tree it was built from. *)
Inductive plexpr : Type :=
| Col (name : string)                       (* pl.col('name') *)
| Lit (q : Q)                               (* pl.lit(q), or a number met by an operator *)
| Neg (e : plexpr)
| BinOp (op : binop) (a b : plexpr)
| PlCall (f : string) (args : list plexpr)  (* pl.f(args) *)
| Method (recv : plexpr) (m : string) (args : list plexpr). (* recv.m(args) *)

Inductive pyobj : Type :=
| PyNum (q : Q)
| PyStr (s : string)
| PyModule_pl                               (* the module bound to the name pl *)
| PyPlFunction (name : string)              (* the attribute pl.name *)
| PyExpr (e : plexpr)
| PyBoundMethod (e : plexpr) (m : string).  (* the attribute e.m *)

(** The attributes of [pl] and the methods of [pl.Expr] the model knows. *)
Definition pl_functions : list string :=
  ["col"; "lit"; "min_horizontal"; "max_horizontal"; "sum_horizontal"].
Definition expr_methods : list string :=
  ["abs"; "round"; "sum"; "eq"; "ne"; "gt"; "ge"; "lt"; "le"].

(** *** Tokens *)

Inductive token : Type :=
| TNum (q : Q)
| TName (s : string)
| TStr (s : string)
| TOp (c : ascii).

Inductive lex_state : Type :=
| LIdle
| LName (acc : string)
| LInt (n : Z)
| LFrac (n : Z) (den : positive)
| LStr (acc : string).

Definition digit_value (c : ascii) : Z := Z.of_nat (nat_of_ascii c - 48).

Definition is_op (c : ascii) : bool :=
  Ascii.eqb c "+" || Ascii.eqb c "-" || Ascii.eqb c "*" || Ascii.eqb c "/"
  || Ascii.eqb c "(" || Ascii.eqb c ")" || Ascii.eqb c "," || Ascii.eqb c ".".

Definition is_quote (c : ascii) : bool := Ascii.eqb c "'".

(** The token a state holds when the character after it does not extend it. *)
Definition flush (st : lex_state) : option (list token) :=
  match st with
  | LIdle => Some []
  | LName acc => Some [TName acc]
  | LInt n => Some [TNum (inject_Z n)]
  | LFrac n den => Some [TNum (n # den)]
  | LStr _ => None
  end.

(** The state after a character read with nothing pending. *)
Definition start (c : ascii) : option (list token * lex_state) :=
  if Expr.is_space c then Some ([], LIdle)
  else if Expr.is_ident_start c then Some ([], LName (String c EmptyString))
  else if Expr.is_digit c then Some ([], LInt (digit_value c))
  else if is_quote c then Some ([], LStr EmptyString)
  else if is_op c then Some ([TOp c], LIdle)
  else None.

Definition lex_step (st : lex_state) (c : ascii) : option (list token * lex_state) :=
  match st with
  | LStr acc =>
      if is_quote c then Some ([TStr acc], LIdle)
      else Some ([], LStr (acc ++ String c EmptyString))
  | LName acc =>
      if Expr.is_ident_char c then Some ([], LName (acc ++ String c EmptyString))
      else match start c with
           | Some (ts, st') => Some (TName acc :: ts, st')
           | None => None
           end
  | LInt n =>
      if Expr.is_digit c then Some ([], LInt (10 * n + digit_value c))
      else if Ascii.eqb c "." then Some ([], LFrac n 1)
      else if Expr.is_ident_start c then None
      else match start c with
           | Some (ts, st') => Some (TNum (inject_Z n) :: ts, st')
           | None => None
           end
  | LFrac n den =>
      if Expr.is_digit c then Some ([], LFrac (10 * n + digit_value c) (10 * den))
      else if Expr.is_ident_start c || Ascii.eqb c "." then None
      else match start c with
           | Some (ts, st') => Some (TNum (n # den) :: ts, st')
           | None => None
           end
  | LIdle => start c
  end.

Fixpoint lex (st : lex_state) (s : string) : option (list token) :=
  match s with
  | EmptyString => flush st
  | String c r =>
      match lex_step st c with
      | None => None
      | Some (ts, st') =>
          match lex st' r with
          | None => None
          | Some ts' => Some (ts ++ ts')
          end
      end
  end.

(** *** Values *)

(** A name of the fragment: only [pl] is bound. *)
Definition lookup (name : string) : option pyobj :=
  if String.eqb name "pl" then Some PyModule_pl else None.

Definition getattr (o : pyobj) (name : string) : option pyobj :=
  match o with
  | PyModule_pl => if Expr.mem name pl_functions then Some (PyPlFunction name) else None
  | PyExpr e => if Expr.mem name expr_methods then Some (PyBoundMethod e name) else None
  | _ => None
  end.

(** An argument where Polars takes an expression: a number is a literal. *)
Definition as_expr (o : pyobj) : option plexpr :=
  match o with
  | PyExpr e => Some e
  | PyNum q => Some (Lit q)
  | _ => None
  end.

Fixpoint as_exprs (os : list pyobj) : option (list plexpr) :=
  match os with
  | [] => Some []
  | o :: os' =>
      match as_expr o, as_exprs os' with
      | Some e, Some es => Some (e :: es)
      | _, _ => None
      end
  end.

Definition call (f : pyobj) (args : list pyobj) : option pyobj :=
  match f with
  | PyPlFunction name =>
      if String.eqb name "col" then
        match args with
        | [PyStr s] => Some (PyExpr (Col s))
        | _ => None
        end
      else if String.eqb name "lit" then
        match args with
        | [PyNum q] => Some (PyExpr (Lit q))
        | _ => None
        end
      else option_map (fun es => PyExpr (PlCall name es)) (as_exprs args)
  | PyBoundMethod e m => option_map (fun es => PyExpr (Method e m es)) (as_exprs args)
  | _ => None
  end.

Definition is_zero (q : Q) : bool := Qeq_bool q 0.

Definition num_op (op : binop) (a b : Q) : option Q :=
  match op with
  | Add => Some (a + b)%Q
  | Sub => Some (a - b)%Q
  | Mul => Some (a * b)%Q
  | Div => if is_zero b then None else Some (a / b)%Q
  | BitAnd => None
  end.

(** [a op b]: numbers compute, an expression on either side builds a node. *)
Definition binary (op : binop) (a b : pyobj) : option pyobj :=
  match a, b with
  | PyNum x, PyNum y => option_map PyNum (num_op op x y)
  | PyExpr x, PyExpr y => Some (PyExpr (BinOp op x y))
  | PyExpr x, PyNum y => Some (PyExpr (BinOp op x (Lit y)))
  | PyNum x, PyExpr y => Some (PyExpr (BinOp op (Lit x) y))
  | _, _ => None
  end.

Definition negate (a : pyobj) : option pyobj :=
  match a with
  | PyNum x => Some (PyNum (- x)%Q)
  | PyExpr e => Some (PyExpr (Neg e))
  | _ => None
  end.

(** [cond_all & e] of engine.py. *)
Definition py_and (a b : pyobj) : option pyobj :=
  match a, b with
  | PyExpr x, PyExpr y => Some (PyExpr (BinOp BitAnd x y))
  | _, _ => None
  end.

(** *** The parser, evaluating as it reads *)

Definition parsed (A : Type) : Type := option (A * list token).

Section Parser.

(** The parser of a whole expression, for parentheses and arguments. *)
Variable parse_expr : list token -> parsed pyobj.

Fixpoint parse_more_args (fuel : nat) (ts : list token) : parsed (list pyobj) :=
  match fuel with
  | O => None
  | S fuel' =>
      match ts with
      | TOp ")" :: r => Some ([], r)
      | TOp "," :: r =>
          match parse_expr r with
          | Some (v, r') =>
              match parse_more_args fuel' r' with
              | Some (vs, r'') => Some (v :: vs, r'')
              | None => None
              end
          | None => None
          end
      | _ => None
      end
  end.

(** After the opening parenthesis of a call. *)
Definition parse_args (fuel : nat) (ts : list token) : parsed (list pyobj) :=
  match ts with
  | TOp ")" :: r => Some ([], r)
  | _ =>
      match parse_expr ts with
      | Some (v, r') =>
          match parse_more_args fuel r' with
          | Some (vs, r'') => Some (v :: vs, r'')
          | None => None
          end
      | None => None
      end
  end.

Definition parse_atom (ts : list token) : parsed pyobj :=
  match ts with
  | TNum q :: r => Some (PyNum q, r)
  | TStr s :: r => Some (PyStr s, r)
  | TName n :: r => option_map (fun v => (v, r)) (lookup n)
  | TOp "(" :: r =>
      match parse_expr r with
      | Some (v, TOp ")" :: r') => Some (v, r')
      | _ => None
      end
  | _ => None
  end.

(** Attribute accesses and calls after an atom. *)
Fixpoint parse_trailers (fuel : nat) (v : pyobj) (ts : list token) : parsed pyobj :=
  match fuel with
  | O => None
  | S fuel' =>
      match ts with
      | TOp "." :: TName n :: r =>
          match getattr v n with
          | Some v' => parse_trailers fuel' v' r
          | None => None
          end
      | TOp "(" :: r =>
          match parse_args fuel' r with
          | Some (args, r') =>
              match call v args with
              | Some v' => parse_trailers fuel' v' r'
              | None => None
              end
          | None => None
          end
      | _ => Some (v, ts)
      end
  end.

Fixpoint parse_factor (fuel : nat) (ts : list token) : parsed pyobj :=
  match fuel with
  | O => None
  | S fuel' =>
      match ts with
      | TOp "-" :: r =>
          match parse_factor fuel' r with
          | Some (v, r') => option_map (fun v' => (v', r')) (negate v)
          | None => None
          end
      | _ =>
          match parse_atom ts with
          | Some (v, r) => parse_trailers fuel' v r
          | None => None
          end
      end
  end.

Fixpoint parse_term_rest (fuel : nat) (v : pyobj) (ts : list token) : parsed pyobj :=
  match fuel with
  | O => None
  | S fuel' =>
      let continue (op : binop) (r : list token) :=
        match parse_factor fuel' r with
        | Some (w, r') =>
            match binary op v w with
            | Some v' => parse_term_rest fuel' v' r'
            | None => None
            end
        | None => None
        end in
      match ts with
      | TOp "*" :: r => continue Mul r
      | TOp "/" :: r => continue Div r
      | _ => Some (v, ts)
      end
  end.

Definition parse_term (fuel : nat) (ts : list token) : parsed pyobj :=
  match parse_factor fuel ts with
  | Some (v, r) => parse_term_rest fuel v r
  | None => None
  end.

Fixpoint parse_sum_rest (fuel : nat) (v : pyobj) (ts : list token) : parsed pyobj :=
  match fuel with
  | O => None
  | S fuel' =>
      let continue (op : binop) (r : list token) :=
        match parse_term fuel' r with
        | Some (w, r') =>
            match binary op v w with
            | Some v' => parse_sum_rest fuel' v' r'
            | None => None
            end
        | None => None
        end in
      match ts with
      | TOp "+" :: r => continue Add r
      | TOp "-" :: r => continue Sub r
      | _ => Some (v, ts)
      end
  end.

Definition parse_sum (fuel : nat) (ts : list token) : parsed pyobj :=
  match parse_term fuel ts with
  | Some (v, r) => parse_sum_rest fuel v r
  | None => None
  end.

End Parser.

Fixpoint parse_expr (fuel : nat) (ts : list token) : parsed pyobj :=
  match fuel with
  | O => None
  | S fuel' => parse_sum (parse_expr fuel') (S (List.length ts)) ts
  end.

(** [eval(code, {"pl": pl}, {})] on the fragment; the whole text must be one
    expression. *)
Definition py_eval (code : string) : option pyobj :=
  match lex LIdle code with
  | None => None
  | Some ts =>
      match parse_expr (S (List.length ts)) ts with
      | Some (v, []) => Some v
      | _ => None
      end
  end.

Definition to_polars : string -> list string -> result pyobj :=
  Expr.to_polars pyobj py_eval.

End PyModel.

(** ** Dates, values and frames *)

Record date : Type := mkdate { year : nat; month : nat; day : nat }.

Definition date_eqb (a b : date) : bool :=
  (year a =? year b)%nat && (month a =? month b)%nat && (day a =? day b)%nat.

Definition date_ltb (a b : date) : bool :=
  (year a <? year b)%nat
  || ((year a =? year b)%nat
      && ((month a <? month b)%nat
          || ((month a =? month b)%nat && (day a <? day b)%nat))).

Definition date_leb (a b : date) : bool := date_ltb a b || date_eqb a b.

(** The first day of a month and of the month after it
    ([date(year, month, 1)] and [+ relativedelta(months=1)]). *)
Definition month_start (y m : nat) : date := mkdate y m 1.
Definition month_end (y m : nat) : date :=
  if (m =? 12)%nat then mkdate (S y) 1 1 else mkdate y (S m) 1.

(** A cell of a frame. *)
Inductive value : Type :=
| VStr (s : string)
| VNum (q : Q)
| VDate (d : date)
| VBool (b : bool).

(** One row of [df_txn], the columns of the docstring of
    [expand_transactions]. *)
Record txn : Type := mktxn {
  source_rowid : string;
  txn_type : string;
  product_code : string;
  channel : string;
  bank_value_date : date;
  gross_amount : Q;
  tabarru_amount : Q;
  tanahud_amount : Q;
  invest_amount : Q;
  ujroh_amount : Q;
  admin_amount : Q
}.

(** A Polars frame, as far as the code looks into one: its columns by name,
    each with its cells. [pl.DataFrame()] has no column. *)
Definition frame : Type := list (string * list value).

Definition no_columns : frame := [].

Fixpoint frame_column (name : string) (df : frame) : option (list value) :=
  match df with
  | [] => None
  | (n, cells) :: df' => if String.eqb n name then Some cells else frame_column name df'
  end.

(** [df.select(names)]: Polars raises ColumnNotFoundError for a name that is
    not a column of [df]. *)
Definition select (names : list string) (df : frame) : result frame :=
  mapM (fun name =>
          match frame_column name df with
          | Some cells => Ok (name, cells)
          | None => Raise (PolarsError "ColumnNotFoundError")
          end)
    names.

(** ** templates.py *)

Module Templates.

(** Rows of [acct.journal_template] and [acct.journal_template_match]. The
    columns the query tests with [IS NULL] are options. *)
Record journal_template : Type := mktemplate {
  t_template_code : string;
  t_template_version : string;
  t_txn_type : string;
  t_status : string;
  t_effective_date : date;
  t_expiry_date : date
}.

Record journal_template_match : Type := mkmatch {
  m_match_id : Z;
  m_template_code : string;
  m_template_version : string;
  m_product_code : option string;
  m_channel : option string;
  m_priority : Z
}.

(** A row of [acct.journal_template_line]: the [rec] of the engine. *)
Record journal_template_line : Type := mkline {
  tl_template_code : string;
  tl_template_version : string;
  line_no : Z;
  side : string;
  account_code : string;
  fund_code : string;
  amount_expr : string;
  amount_round : Z;
  is_active : bool
}.

Record journal_template_line_cond : Type := mkcond {
  c_template_code : string;
  c_template_version : string;
  c_line_no : Z;
  cond_name : string;
  cond_expr : string
}.

Record journal_template_control : Type := mkcontrol {
  ctl_template_code : string;
  ctl_template_version : string;
  require_balanced : bool;
  tolerance_amount : Q;
  balancing_mode : string;
  balancing_account : option string;
  balancing_fund : option string
}.

(** The schema [acct]. *)
Record store : Type := mkstore {
  templates : list journal_template;
  matches : list journal_template_match;
  template_lines : list journal_template_line;
  template_conds : list journal_template_line_cond;
  template_controls : list journal_template_control
}.

(** The dictionary [load_active_template] returns. *)
Record template : Type := mktpl {
  template_code : string;
  template_version : string;
  lines : list journal_template_line;
  conds : list journal_template_line_cond;
  control : journal_template_control
}.

(** [LIMIT 1] and [fetchone]. *)
Definition fetchone {A : Type} (l : list A) : option A := hd_error l.

(** *** The matching query *)

(** [col = %s OR col IS NULL]. *)
Definition eq_or_null (col : option string) (arg : string) : bool :=
  match col with
  | None => true
  | Some v => String.eqb v arg
  end.

Definition is_null (col : option string) : bool :=
  match col with None => true | Some _ => false end.

(** [(col IS NULL)::int]. *)
Definition null_int (col : option string) : Z := if is_null col then 1%Z else 0%Z.

(** The [ON] clause of the join. *)
Definition join_on (t : journal_template) (m : journal_template_match) : bool :=
  String.eqb (m_template_code m) (t_template_code t)
  && String.eqb (m_template_version m) (t_template_version t).

(** The [WHERE] clause. *)
Definition where_clause (txn_type product_code channel : string) (txn_date : date)
    (tm : journal_template * journal_template_match) : bool :=
  let (t, m) := tm in
  String.eqb (t_txn_type t) txn_type
  && String.eqb (t_status t) "ACTIVE"
  && date_leb (t_effective_date t) txn_date
  && date_ltb txn_date (t_expiry_date t)
  && eq_or_null (m_product_code m) product_code
  && eq_or_null (m_channel m) channel.

(** [ORDER BY m.priority ASC, (m.product_code IS NULL)::int,
    (m.channel IS NULL)::int], as a comparison of two joined rows. *)
Definition order_le (a b : journal_template * journal_template_match) : bool :=
  let ma := snd a in
  let mb := snd b in
  (m_priority ma <? m_priority mb)%Z
  || ((m_priority ma =? m_priority mb)%Z
      && ((null_int (m_product_code ma) <? null_int (m_product_code mb))%Z
          || ((null_int (m_product_code ma) =? null_int (m_product_code mb))%Z
              && (null_int (m_channel ma) <=? null_int (m_channel mb))%Z))).

Definition joined (db : store) : list (journal_template * journal_template_match) :=
  flat_map (fun t => map (pair t) (filter (join_on t) (matches db))) (templates db).

(** The rows of the query before [LIMIT 1]. *)
Definition matching_rows (db : store) (txn_type product_code channel : string)
    (txn_date : date) : list (journal_template * journal_template_match) :=
  order_by order_le
    (filter (where_clause txn_type product_code channel txn_date) (joined db)).

Definition same_template {A : Type} (code : A -> string) (version : A -> string)
    (template_code template_version : string) (r : A) : bool :=
  String.eqb (code r) template_code && String.eqb (version r) template_version.

Definition line_no_le (a b : journal_template_line) : bool :=
  (line_no a <=? line_no b)%Z.

(** The control row used when the template has none. *)
Definition default_control (template_code template_version : string)
    : journal_template_control :=
  mkcontrol template_code template_version true 0.01 "ERROR" None None.

(** *** The bundle (lines 24-59)

    The three statements that read the lines, the conditions and the control
    record are built as text: the code and the version of the selected row
    are written between apostrophes into the statement (lines 27-48). When
    neither holds an apostrophe, the two literals of the text are the code
    and the version, and the statements are the three selections by
    equality. When one does, the text is another statement, or none; what
    the store answers to it is [read_spliced], a parameter of the model. *)

Fixpoint holds_apostrophe (s : string) : bool :=
  match s with
  | EmptyString => false
  | String c r => Ascii.eqb c "'" || holds_apostrophe r
  end.

Definition quoted_as_is (s : string) : bool := negb (holds_apostrophe s).

(** The rows of the three statements. *)
Definition template_rows : Type :=
  (list journal_template_line * list journal_template_line_cond
   * list journal_template_control)%type.

Definition rows_by_equality (db : store) (template_code template_version : string)
    : template_rows :=
  (order_by line_no_le
     (filter (same_template tl_template_code tl_template_version
                template_code template_version) (template_lines db)),
   filter (same_template c_template_code c_template_version
             template_code template_version) (template_conds db),
   filter (same_template ctl_template_code ctl_template_version
             template_code template_version) (template_controls db)).

Section Load.

Variable read_spliced : store -> string -> string -> result template_rows.

Definition read_rows (db : store) (template_code template_version : string)
    : result template_rows :=
  if quoted_as_is template_code && quoted_as_is template_version
  then Ok (rows_by_equality db template_code template_version)
  else read_spliced db template_code template_version.

Definition load_active_template (db : store)
    (txn_type product_code channel : string) (txn_date : date) : result template :=
  match fetchone (matching_rows db txn_type product_code channel txn_date) with
  | None => Raise RuntimeError_no_active_template
  | Some (t, _) =>
      let template_code := t_template_code t in
      let template_version := t_template_version t in
      do rows <- read_rows db template_code template_version;
      let '(lines, conds, ctrl) := rows in
      Ok (mktpl template_code template_version lines conds
            (match ctrl with
             | c :: _ => c
             | [] => default_control template_code template_version
             end))
  end.

End Load.

End Templates.

(** ** What the model takes as given

    [read_spliced] is the store's answer to the statements of
    [load_active_template] when the text spliced into them holds an
    apostrophe. [lines_24_112] is what [expand_transactions] does from
    line 24 on once the columns that the [with_columns] of lines 24-28 reads
    are columns of the batch: Polars' arithmetic on the amount columns,
    [eval], the pivot and the comparison with the tolerance. No batch of the
    documented columns gets there, and every statement below holds whatever
    [lines_24_112] is. *)
Record runtime : Type := mkruntime {
  read_spliced : Templates.store -> string -> string -> result Templates.template_rows;
  lines_24_112 : Templates.template -> string -> string -> list txn
                 -> result (frame * frame * string)
}.

(** ** engine.py *)

Module Engine.
Import Templates.

(** [df_txn.columns]: the columns of the docstring of [expand_transactions],
    which are the columns [load_txn_for_month] selects. *)
Definition txn_columns : list string :=
  ["source_rowid"; "txn_type"; "product_code"; "channel"; "bank_value_date";
   "gross_amount"; "tabarru_amount"; "tanahud_amount"; "invest_amount";
   "ujroh_amount"; "admin_amount"].

(** [set(df_txn.columns)] of line 42, as lines 24-28 are written to leave
    it: the columns of the batch, [je_number] and [je_date]. *)
Definition df_cols : list string :=
  ["source_rowid"; "txn_type"; "product_code"; "channel"; "bank_value_date";
   "gross_amount"; "tabarru_amount"; "tanahud_amount"; "invest_amount";
   "ujroh_amount"; "admin_amount"; "je_number"; "je_date"].

(** The columns that the three expressions of the [with_columns] of lines
    24-28 read, in the order of the text: [bank_value_date] for [_yyyymm],
    [_yyyymm] and [source_rowid] for [je_number], [bank_value_date] for
    [je_date]. *)
Definition columns_read_24_28 : list string :=
  ["bank_value_date"; "_yyyymm"; "source_rowid"; "bank_value_date"].

(** Polars evaluates every expression of one [with_columns] on the frame as
    it is before the call: a [pl.col] names a column of that frame, or the
    call raises ColumnNotFoundError. A column that another expression of the
    same call creates is not one of them. *)
Definition resolve (columns names : list string) : result unit :=
  if forallb (fun name => Expr.mem name columns) names then Ok tt
  else Raise (PolarsError "ColumnNotFoundError").

Section Expansion.

Variable R : runtime.

(** [expand_transactions] on a batch of the documented columns; [db] is the
    template schema the resolver reads and [run_id] the value of
    [str(uuid.uuid4())]. An empty batch returns two frames without columns
    (line 17). *)
Definition expand_transactions (db : store) (run_id : string) (df_txn : list txn)
    (created_by : string) : result (frame * frame * string) :=
  match df_txn with
  | [] => Ok (no_columns, no_columns, run_id)
  | any_row :: _ =>
      do tpl <- load_active_template (read_spliced R) db (txn_type any_row)
                  (product_code any_row) (channel any_row) (bank_value_date any_row);
      do _ <- resolve txn_columns columns_read_24_28;
      lines_24_112 R tpl run_id created_by df_txn
  end.

End Expansion.

End Engine.

(** ** Instances for the examples *)

Module Model.

Definition syntax_error : exn := DbError "42601".

(** A store that answers a spliced text with a syntax error, and a remainder
    of the expansion that raises. *)
Definition runtime_model : runtime :=
  mkruntime (fun _ _ _ => Raise syntax_error)
    (fun _ _ _ _ => Raise (PolarsError "expression")).

(** The same store, and a remainder that returns a header per row. *)
Definition runtime_returning : runtime :=
  mkruntime (fun _ _ _ => Raise syntax_error)
    (fun _ run_id _ df_txn =>
       Ok ([("source_rowid", map (fun t => VStr (source_rowid t)) df_txn)],
           no_columns, run_id)).

End Model.

(** ** The ledger store, db.py, posting.py and balances.py *)

Module Ledger.

(** A row of [public.ledger_entry_header]; [je_id] is assigned by the store. *)
Record ledger_entry_header : Type := mkledger_header {
  je_id : Z;
  le_je_number : string;
  le_je_date : date;
  le_je_type : string;
  le_source_rowid : string;
  le_template_code : string;
  le_template_version : string;
  le_run_id : string
}.

Record ledger_entry_line : Type := mkledger_line {
  ll_je_id : Z;
  ll_line_no : Z;
  ll_side : string;
  ll_account_code : string;
  ll_fund : string;
  ll_amount : Q;
  ll_je_date : date
}.

(** The staging rows: the columns the UPDATEs of posting.py name. *)
Record staging_row : Type := mkstaging {
  st_run_id : string;
  st_je_number : string;
  posted : bool;
  posted_at : option nat
}.

Record account_balance_snapshot : Type := mksnapshot {
  period_start : date;
  s_account_code : string;
  s_fund : string;
  opening_balance : Q;
  debit : Q;
  credit : Q;
  closing_balance : Q;
  calculated_at : nat
}.

(** The schema [public]. [next_je_id] is the sequence behind [je_id], and
    [header_unique] says whether the ledger header table declares the
    uniqueness constraint on (header number, template identity) that the
    spec names: the schema that declares the tables is not among the source
    files. *)
Record database : Type := mkdatabase {
  header_unique : bool;
  header_table : list ledger_entry_header;
  next_je_id : Z;
  line_table : list ledger_entry_line;
  line_partitions : list date;
  je_header_staging : list staging_row;
  je_line_staging : list staging_row;
  snapshot_table : list account_balance_snapshot
}.

(** *** db.py and posting.py *)



(** [je_date >= start_date AND je_date < end_date] (line 21, and line 16 of
    balances.py). *)
Definition in_period (start_date end_date : date) (d : date) : bool :=
  date_leb start_date d && date_ltb d end_date.




(** *** balances.py

    The statement of [update_month_balance] is kept as a statement: a select
    list over a [FROM] clause, run against the common table expression
    [mvt]. A column reference [alias.column] is resolved against the
    aliases the [FROM] clause binds. *)

Inductive sql_expr : Type :=
| Param (d : date)                       (* %s *)
| ColRef (alias column : string)         (* alias.column *)
| Const (q : Q)
| Plus (a b : sql_expr)
| Minus (a b : sql_expr)
| Now.                                   (* now() *)

Inductive sql_value : Type :=
| SDate (d : date)
| SText (s : string)
| SNum (q : Q)
| STime (t : nat).

(** A row of a named relation. *)
Definition sql_row : Type := list (string * sql_value).

(** The rows in scope, by alias. *)
Definition scope : Type := list (string * sql_row).

Fixpoint assoc {A : Type} (name : string) (l : list (string * A)) : option A :=
  match l with
  | [] => None
  | (n, a) :: l' => if String.eqb n name then Some a else assoc name l'
  end.

Definition undefined_table : exn := DbError "42P01".
Definition undefined_column : exn := DbError "42703".
Definition datatype_mismatch : exn := DbError "42804".

Fixpoint eval_sql (now : nat) (env : scope) (e : sql_expr) : result sql_value :=
  match e with
  | Param d => Ok (SDate d)
  | ColRef alias column =>
      match assoc alias env with
      | None => Raise undefined_table     (* missing FROM-clause entry *)
      | Some r => or_raise undefined_column (assoc column r)
      end
  | Const q => Ok (SNum q)
  | Plus a b =>
      do x <- eval_sql now env a;
      do y <- eval_sql now env b;
      match x, y with
      | SNum p, SNum q => Ok (SNum (p + q)%Q)
      | _, _ => Raise datatype_mismatch
      end
  | Minus a b =>
      do x <- eval_sql now env a;
      do y <- eval_sql now env b;
      match x, y with
      | SNum p, SNum q => Ok (SNum (p - q)%Q)
      | _, _ => Raise datatype_mismatch
      end
  | Now => Ok (STime now)
  end.

(** The rows a [FROM] clause ranges over, each with its alias bound: one
    empty scope when there is no [FROM] clause. *)
Fixpoint from_rows (relations : list (string * list sql_row))
    (from_clause : list (string * string)) : result (list scope) :=
  match from_clause with
  | [] => Ok [[]]
  | (relation, alias) :: from_clause' =>
      do rows <- or_raise undefined_table (assoc relation relations);
      do rest <- from_rows relations from_clause';
      Ok (flat_map (fun r => map (cons (alias, r)) rest) rows)
  end.

(** The common table expression [mvt] (lines 10-18). *)
Definition je_date_of (headers : list ledger_entry_header) (id : Z) : list date :=
  map le_je_date (filter (fun h => (je_id h =? id)%Z) headers).

(** The lines of the join whose header is dated in the period. *)
Definition period_lines (db : database) (start_date end_date : date)
    : list ledger_entry_line :=
  flat_map (fun l =>
              map (fun _ => l)
                (filter (in_period start_date end_date)
                   (je_date_of (header_table db) (ll_je_id l))))
    (line_table db).

Definition same_account (a b : string * string) : bool :=
  String.eqb (fst a) (fst b) && String.eqb (snd a) (snd b).

Definition account_of (l : ledger_entry_line) : string * string :=
  (ll_account_code l, ll_fund l).

(** [GROUP BY l.account_code, l.fund]: the keys, each once. *)
Fixpoint group_keys (ls : list ledger_entry_line) : list (string * string) :=
  match ls with
  | [] => []
  | l :: ls' =>
      let ks := group_keys ls' in
      if existsb (same_account (account_of l)) ks then ks else account_of l :: ks
  end.

(** [SUM(CASE WHEN l.side=s THEN l.amount ELSE 0 END)] over one group. *)
Definition sum_case (s : string) (k : string * string) (ls : list ledger_entry_line) : Q :=
  fold_right Qplus 0
    (map (fun l => if String.eqb (ll_side l) s then ll_amount l else 0)
       (filter (fun l => same_account (account_of l) k) ls)).

Definition mvt (db : database) (start_date end_date : date) : list sql_row :=
  let ls := period_lines db start_date end_date in
  map (fun k => [("account_code", SText (fst k)); ("fund", SText (snd k));
                 ("debit", SNum (sum_case "DR" k ls));
                 ("credit", SNum (sum_case "CR" k ls))])
    (group_keys ls).

(** The select list of the [INSERT] (line 21). *)
Definition select_list (start_date : date) : list sql_expr :=
  [Param start_date; ColRef "m" "account_code"; ColRef "m" "fund"; Const 0;
   ColRef "m" "debit"; ColRef "m" "credit";
   Minus (Plus (Const 0) (ColRef "m" "debit")) (ColRef "m" "credit"); Now].

(** A selected row as a row of the target columns (line 20). *)
Definition to_snapshot (vs : list sql_value) : result account_balance_snapshot :=
  match vs with
  | [SDate p; SText a; SText f; SNum o; SNum d; SNum c; SNum cl; STime t] =>
      Ok (mksnapshot p a f o d c cl t)
  | _ => Raise datatype_mismatch
  end.

Definition same_snapshot_key (a b : account_balance_snapshot) : bool :=
  date_eqb (period_start a) (period_start b)
  && String.eqb (s_account_code a) (s_account_code b)
  && String.eqb (s_fund a) (s_fund b).

(** [INSERT ... ON CONFLICT (period_start, account_code, fund) DO UPDATE SET
    debit, credit, closing_balance, calculated_at] of one row. *)
Fixpoint upsert (new : account_balance_snapshot) (table : list account_balance_snapshot)
    : list account_balance_snapshot :=
  match table with
  | [] => [new]
  | old :: table' =>
      if same_snapshot_key old new
      then mksnapshot (period_start old) (s_account_code old) (s_fund old)
             (opening_balance old) (debit new) (credit new) (closing_balance new)
             (calculated_at new) :: table'
      else old :: upsert new table'
  end.

(** The whole statement, for a given [FROM] clause of the [INSERT]'s
    [SELECT]. *)
Definition insert_select (from_clause : list (string * string)) (db : database)
    (now : nat) (start_date end_date : date) : result database :=
  do scopes <- from_rows [("mvt", mvt db start_date end_date)] from_clause;
  do selected <- mapM (fun env => mapM (eval_sql now env) (select_list start_date)) scopes;
  do rows <- mapM to_snapshot selected;
  Ok (mkdatabase (header_unique db) (header_table db) (next_je_id db) (line_table db)
        (line_partitions db) (je_header_staging db) (je_line_staging db)
        (fold_left (fun table r => upsert r table) rows (snapshot_table db))).

Definition run_statement (db : database) (r : result database) : database * result unit :=
  match r with
  | Ok db' => (db', Ok tt)
  | Raise e => (db, Raise e)
  end.

(** The row the statement would insert for one group of [mvt]. *)
Definition snapshot_row (now : nat) (start_date : date) (ls : list ledger_entry_line)
    (k : string * string) : account_balance_snapshot :=
  mksnapshot start_date (fst k) (snd k) 0 (sum_case "DR" k ls) (sum_case "CR" k ls)
    (0 + sum_case "DR" k ls - sum_case "CR" k ls)%Q now.

(** A snapshot row without its [calculated_at]. *)
Definition snapshot_key (r : account_balance_snapshot) : date * string * string :=
  (period_start r, s_account_code r, s_fund r).
Definition snapshot_amounts (r : account_balance_snapshot) : Q * Q * Q :=
  (debit r, credit r, closing_balance r).
Definition snapshot_values (r : account_balance_snapshot)
    : (date * string * string) * Q * (Q * Q * Q) :=
  (snapshot_key r, opening_balance r, snapshot_amounts r).

(** The first row of the table with the key of [r]. *)
Definition stored (table : list account_balance_snapshot) (r : account_balance_snapshot)
    : option account_balance_snapshot :=
  find (fun old => same_snapshot_key old r) table.

(** [r] is in the table: the first row with its key has its amounts. *)
Definition holds (table : list account_balance_snapshot) (r : account_balance_snapshot)
    : Prop :=
  exists x, stored table r = Some x /\ snapshot_amounts x = snapshot_amounts r.

Fixpoint unique_keys (table : list account_balance_snapshot) : bool :=
  match table with
  | [] => true
  | r :: table' => negb (existsb (same_snapshot_key r) table') && unique_keys table'
  end.

(** [update_month_balance]: the [SELECT] of the [INSERT] has no [FROM]
    clause (lines 19-22). *)
Definition update_month_balance (db : database) (now : nat) (year month : nat)
    : database * result unit :=
  run_statement db
    (insert_select [] db now (month_start year month) (month_end year month)).

(** The same statement with [FROM mvt m] after the select list. *)
Definition update_month_balance_from_mvt (db : database) (now : nat) (year month : nat)
    : database * result unit :=
  run_statement db
    (insert_select [("mvt", "m")] db now (month_start year month) (month_end year month)).

End Ledger.

(** ** seed_txn_source.py, staging.py and run_month.py *)

Module Seed.

(** [date(year + (month // 12), (month % 12) + 1, 1)] of
    [seed_txn_source]. *)
Definition next_month (year month : nat) : date :=
  mkdate (year + month / 12) (month mod 12 + 1) 1.

(** [d.replace(day=1)]: the [txn_month] of a seeded row. *)
Definition first_of_month (d : date) : date := mkdate (year d) (month d) 1.

End Seed.

Module Pipeline.
Import Templates Engine Ledger.










End Pipeline.

(** ** The spec's words

    Definitions that follow the wording of the spec, for comparison with the
    code. *)

Module Spec.
Import Expr.

Definition chars : string -> list ascii := list_ascii_of_string.

(** The expression contains the reference [:name]: a colon, the identifier
    [name], and after it no character that would extend the identifier. *)
Definition identifier (n : string) : Prop :=
  starts_ident n = true /\ forallb_string is_ident_char n = true.

Definition ends_identifier (post : string) : Prop :=
  match post with
  | EmptyString => True
  | String c _ => is_ident_char c = false
  end.

Definition contains_reference (expr name : string) : Prop :=
  exists pre post,
    expr = (pre ++ String ":" (name ++ post))%string
    /\ identifier name /\ ends_identifier post.

(** The closed grammar, read on the lexemes of an expression: numeric
    literals, references to known fields, parentheses, the operators
    [+ - * /], the comma of a call, and the names [abs], [min], [max] and
    [round]. *)
Definition named_functions : list string := ["abs"; "min"; "max"; "round"].

Definition grammar_lexeme (t : PyModel.token) : bool :=
  match t with
  | PyModel.TNum _ => true
  | PyModel.TName n => mem n named_functions
  | PyModel.TOp c => negb (Ascii.eqb c ".")
  | PyModel.TStr _ => false
  end.

Definition grammar_text (t : string) : bool :=
  match PyModel.lex PyModel.LIdle t with
  | Some ts => forallb grammar_lexeme ts
  | None => false
  end.

Definition grammar_piece (known_fields : list string) (p : piece) : bool :=
  match p with
  | Text t => grammar_text t
  | Ref n => mem n known_fields
  end.

Definition in_closed_grammar (expr : string) (known_fields : list string) : bool :=
  forallb (grammar_piece known_fields) (finditer (strip expr)).

(** A joined row the matching query of the resolver selects: the type
    matches exactly, the status is ACTIVE, the date is within
    [effective_date, expiry_date), and product and channel each match
    exactly or are wildcards. *)
Definition selects (db : Templates.store) (txn_type product_code channel : string)
    (as_of_date : date)
    (t : Templates.journal_template) (m : Templates.journal_template_match) : Prop :=
  In t (Templates.templates db) /\ In m (Templates.matches db)
  /\ Templates.m_template_code m = Templates.t_template_code t
  /\ Templates.m_template_version m = Templates.t_template_version t
  /\ Templates.t_txn_type t = txn_type
  /\ Templates.t_status t = "ACTIVE"
  /\ date_leb (Templates.t_effective_date t) as_of_date = true
  /\ date_ltb as_of_date (Templates.t_expiry_date t) = true
  /\ (Templates.m_product_code m = Some product_code \/ Templates.m_product_code m = None)
  /\ (Templates.m_channel m = Some channel \/ Templates.m_channel m = None).




Definition wildcard (col : option string) : Prop := col = None.

(** [m] is not after [m'] in the tie-break order: ascending priority, then a
    non-wildcard product first, then a non-wildcard channel first. *)
Definition not_after (m m' : Templates.journal_template_match) : Prop :=
  (Templates.m_priority m < Templates.m_priority m')%Z
  \/ (Templates.m_priority m = Templates.m_priority m'
      /\ ((~ wildcard (Templates.m_product_code m)
           /\ wildcard (Templates.m_product_code m'))
          \/ ((wildcard (Templates.m_product_code m)
                <-> wildcard (Templates.m_product_code m'))
              /\ (wildcard (Templates.m_channel m)
                  -> wildcard (Templates.m_channel m'))))).

End Spec.

(** ** Example data *)

Module Examples.
Import Templates.

Definition oct5 : date := mkdate 2025 10 5.
Definition y2025 : date := mkdate 2025 1 1.
Definition y2026 : date := mkdate 2026 1 1.

(** Two rule sets for premium receipts: PREM for any product, and PREM_INV,
    of better priority, for the product INV01. Line 3 of PREM carries a
    condition. *)
Definition rules : store :=
  mkstore
    [mktemplate "PREM" "1" "PREMIUM_RECEIPT" "ACTIVE" y2025 y2026;
     mktemplate "PREM_INV" "1" "PREMIUM_RECEIPT" "ACTIVE" y2025 y2026]
    [mkmatch 1 "PREM" "1" None None 10;
     mkmatch 2 "PREM_INV" "1" (Some "INV01") None 5]
    [mkline "PREM" "1" 1 "DR" "ACCT_A" "F1" ":gross_amount" 2 true;
     mkline "PREM" "1" 2 "CR" "ACCT_B" "F1" ":gross_amount - :admin_amount" 2 true;
     mkline "PREM" "1" 3 "CR" "ACCT_C" "F1" ":admin_amount" 2 true;
     mkline "PREM_INV" "1" 1 "DR" "ACCT_I" "F2" ":invest_amount" 2 true;
     mkline "PREM_INV" "1" 2 "CR" "ACCT_J" "F2" ":invest_amount" 2 true]
    [mkcond "PREM" "1" 3 "has_admin" ":channel.ne(:product_code)"]
    [].

(** The fifth scenario of the spec: two lines on opposite sides that differ
    by 0.02 on the row below, under a control record that requires balance
    with tolerance 0.01. *)
Definition rules_unbalanced : store :=
  mkstore
    [mktemplate "PREM" "1" "PREMIUM_RECEIPT" "ACTIVE" y2025 y2026]
    [mkmatch 1 "PREM" "1" None None 10]
    [mkline "PREM" "1" 1 "DR" "ACCT_A" "F1" ":gross_amount" 2 true;
     mkline "PREM" "1" 2 "CR" "ACCT_B" "F1" ":gross_amount - :admin_amount" 2 true]
    []
    [mkcontrol "PREM" "1" true 0.01 "ERROR" None None].

Definition txn_unbalanced : txn :=
  mktxn "TXN-0000005" "PREMIUM_RECEIPT" "LIFE01" "AGENCY" oct5 100000 0 0 0 0 0.02.

(** A rule set whose template code holds an apostrophe. *)
Definition rules_apostrophe : store :=
  mkstore
    [mktemplate "PREM'A" "1" "PREMIUM_RECEIPT" "ACTIVE" y2025 y2026]
    [mkmatch 1 "PREM'A" "1" None None 10]
    [mkline "PREM'A" "1" 1 "DR" "ACCT_A" "F1" ":gross_amount" 2 true]
    [] [].

Definition txn_branch : txn :=
  mktxn "TXN-0000006" "PREMIUM_RECEIPT" "LIFE01" "INBRANCH" oct5 150000 0 0 0 0 1000.


Definition expand (db : store) (df_txn : list txn) : result (frame * frame * string) :=
  Engine.expand_transactions Model.runtime_model db "run-1" df_txn "system".



End Examples.

(** ** More example data *)

Module MoreExamples.
Import Templates.

Definition load_or_empty (db : store) : template :=
  match load_active_template (read_spliced Model.runtime_model) db
          "PREMIUM_RECEIPT" "LIFE01" "AGENCY" Examples.oct5 with
  | Ok tpl => tpl
  | Raise _ => mktpl EmptyString EmptyString [] []
                 (default_control EmptyString EmptyString)
  end.

(** A rule table whose lines are stored out of order, with a line of another
    template between them. *)
Definition rules_unordered : store :=
  mkstore (templates Examples.rules) (matches Examples.rules)
    [mkline "PREM" "1" 2 "CR" "ACCT_B" "F1" ":gross_amount" 2 true;
     mkline "PREM_INV" "1" 1 "DR" "ACCT_I" "F2" ":invest_amount" 2 true;
     mkline "PREM" "1" 1 "DR" "ACCT_A" "F1" ":gross_amount" 2 false]
    [] [].


End MoreExamples.

(** * Properties *)

(** ** The monad of results *)

Lemma bind_ok {A B : Type} (r : result A) (k : A -> result B) (b : B) :
  bind r k = Ok b -> exists a, r = Ok a /\ k a = Ok b.
Proof.
  destruct r as [a|e]; simpl; intros H.
  - exists a. split; [reflexivity | exact H].
  - discriminate H.
Qed.

Lemma bind_raise {A B : Type} (r : result A) (k : A -> result B) (e : exn) :
  r = Raise e -> bind r k = Raise e.
Proof. intros ->. reflexivity. Qed.

Lemma mapM_ok_length {A B : Type} (f : A -> result B) (l : list A) (bs : list B) :
  mapM f l = Ok bs -> List.length bs = List.length l.
Proof.
  revert bs. induction l as [|a l IH]; simpl; intros bs H.
  - injection H as <-. reflexivity.
  - destruct (f a) as [b|e]; simpl in H; [|discriminate].
    destruct (mapM f l) as [bs'|e]; simpl in H; [|discriminate].
    injection H as <-. simpl. f_equal. apply IH. reflexivity.
Qed.

Lemma mapM_ok_map {A B : Type} (f : A -> result B) (g : A -> B) (l : list A) :
  (forall a, In a l -> f a = Ok (g a)) -> mapM f l = Ok (map g l).
Proof.
  induction l as [|a l IH]; simpl; intros H.
  - reflexivity.
  - rewrite (H a (or_introl eq_refl)). simpl.
    rewrite IH by (intros; apply H; right; assumption). reflexivity.
Qed.

Lemma mapM_raise_in {A B : Type} (f : A -> result B) (l : list A) (a : A) (e : exn) :
  In a l -> f a = Raise e -> exists e', mapM f l = Raise e'.
Proof.
  induction l as [|x l IH]; simpl; intros Hin Hf.
  - contradiction.
  - destruct Hin as [->|Hin].
    + rewrite Hf. eexists. reflexivity.
    + destruct (f x) as [b|e0]; simpl; [|eexists; reflexivity].
      destruct (IH Hin Hf) as [e' ->]. eexists. reflexivity.
Qed.

(** ** expr.py *)

Module ExprFacts.
Import Expr Spec.

Lemma forallb_string_false (p : ascii -> bool) (s : string) (c : ascii) :
  In c (chars s) -> p c = false -> forallb_string p s = false.
Proof.
  induction s as [|a s IH]; simpl; intros Hin Hp.
  - contradiction.
  - destruct Hin as [->|Hin].
    + rewrite Hp. reflexivity.
    + rewrite (IH Hin Hp). apply andb_false_r.
Qed.

Lemma lstrip_keeps (s : string) (c : ascii) :
  In c (chars s) -> is_space c = false -> In c (chars (lstrip s)).
Proof.
  induction s as [|a s IH]; simpl; intros Hin Hc.
  - contradiction.
  - destruct (is_space a) eqn:Ha.
    + destruct Hin as [->|Hin]; [congruence | auto].
    + exact Hin.
Qed.

Lemma rstrip_keeps (s : string) (c : ascii) :
  In c (chars s) -> is_space c = false -> In c (chars (rstrip s)).
Proof.
  induction s as [|a s IH]; simpl; intros Hin Hc.
  - contradiction.
  - destruct Hin as [->|Hin].
    + rewrite Hc. simpl. left. reflexivity.
    + specialize (IH Hin Hc).
      destruct (rstrip s) as [|b r] eqn:Hr; [contradiction|].
      rewrite andb_false_r. simpl. right. exact IH.
Qed.

Lemma strip_keeps (s : string) (c : ascii) :
  In c (chars s) -> is_space c = false -> In c (chars (strip s)).
Proof.
  intros Hin Hc. unfold strip. apply rstrip_keeps; [|exact Hc].
  apply lstrip_keeps; assumption.
Qed.

Lemma not_allowed_not_space (c : ascii) : allowed_char c = false -> is_space c = false.
Proof.
  unfold allowed_char. intros H.
  destruct (is_space c); [|reflexivity].
  destruct (is_digit c), (Ascii.eqb c "."); discriminate H.
Qed.

(** An expression with a character outside the class never reaches the
    substitution. *)
Lemma illegal_character_rejected (expr : string) (df_cols : list string) (c : ascii) :
  In c (chars expr) -> allowed_char c = false ->
  code_of expr df_cols = Raise ValueError_illegal_characters.
Proof.
  intros Hin Hc. unfold code_of, fullmatch_allowed.
  assert (Hs : In c (chars (strip expr)))
    by (apply strip_keeps; [exact Hin | apply not_allowed_not_space; exact Hc]).
  rewrite (forallb_string_false _ _ _ Hs Hc), andb_false_r. reflexivity.
Qed.

(** *** References found by the scan *)

Lemma append_nil_r (s : string) : (s ++ EmptyString)%string = s.
Proof. induction s as [|a s IH]; simpl; [reflexivity | rewrite IH; reflexivity]. Qed.

Lemma append_assoc (a b c : string) : ((a ++ b) ++ c)%string = (a ++ (b ++ c))%string.
Proof. induction a as [|x a IH]; simpl; [reflexivity | rewrite IH; reflexivity]. Qed.

Lemma field_refs_cons_text (c : ascii) (ps : list piece) :
  field_refs (cons_text c ps) = field_refs ps.
Proof. destruct ps as [|[t|n] ps]; reflexivity. Qed.

Lemma starts_ident_app (n post : string) :
  starts_ident n = true -> starts_ident (n ++ post) = true.
Proof. destruct n; simpl; [discriminate | trivial]. Qed.

(** Inside a match the scan reads the whole identifier. *)
Lemma inside_identifier (n post : string) :
  forallb_string is_ident_char n = true -> ends_identifier post ->
  forall acc, exists rest, inside acc (n ++ post) = Ref (acc ++ n) :: rest.
Proof.
  intros Hn Hpost. induction n as [|a n IH]; intros acc.
  - rewrite append_nil_r. simpl.
    destruct post as [|c r]; simpl.
    + eexists. reflexivity.
    + simpl in Hpost. rewrite Hpost. eexists. reflexivity.
  - simpl in Hn. apply andb_prop in Hn as [Ha Hn'].
    simpl. rewrite Ha.
    destruct (IH Hn' (acc ++ String a EmptyString)%string) as [rest ->].
    exists rest. rewrite append_assoc. reflexivity.
Qed.

Lemma scan_finds_reference (n post : string) :
  identifier n -> ends_identifier post ->
  forall pre,
    In n (field_refs (outside (pre ++ String ":" (n ++ post))))
    /\ forall acc, In n (field_refs (inside acc (pre ++ String ":" (n ++ post)))).
Proof.
  intros [Hstart Hn] Hpost.
  assert (Hhere : In n (field_refs (inside EmptyString (n ++ post)))).
  { destruct (inside_identifier n post Hn Hpost EmptyString) as [rest ->].
    simpl. left. reflexivity. }
  induction pre as [|c pre [IHout IHin]].
  - split; [|intros acc]; simpl; rewrite (starts_ident_app _ _ Hstart); simpl.
    + exact Hhere.
    + right. exact Hhere.
  - split; [|intros acc]; simpl.
    + destruct (is_colon c && starts_ident _); [apply IHin|].
      rewrite field_refs_cons_text. exact IHout.
    + destruct (is_ident_char c); [apply IHin|].
      simpl. right.
      destruct (is_colon c && starts_ident _); [apply IHin|].
      rewrite field_refs_cons_text. exact IHout.
Qed.

(** *** [strip] keeps a reference *)

Definition starts_nonspace (s : string) : Prop :=
  match s with
  | EmptyString => False
  | String c _ => is_space c = false
  end.

Lemma lstrip_app (pre s : string) :
  starts_nonspace s -> lstrip (pre ++ s) = (lstrip pre ++ s)%string.
Proof.
  intros Hs. induction pre as [|a pre IH]; simpl.
  - destruct s as [|c r]; simpl in *; [contradiction | rewrite Hs; reflexivity].
  - destruct (is_space a); [exact IH | reflexivity].
Qed.

Lemma rstrip_app (a s : string) :
  rstrip (a ++ s) = (if is_empty (rstrip s) then rstrip a else a ++ rstrip s)%string.
Proof.
  induction a as [|x a IH]; simpl.
  - destruct (rstrip s); reflexivity.
  - rewrite IH. destruct (is_empty (rstrip s)) eqn:He.
    + reflexivity.
    + destruct (a ++ rstrip s)%string eqn:Happ.
      * destruct a; simpl in Happ; [rewrite Happ in He; discriminate | discriminate].
      * rewrite andb_false_r. reflexivity.
Qed.

Lemma ident_char_not_space (c : ascii) : is_ident_char c = true -> is_space c = false.
Proof.
  destruct c as [[|] [|] [|] [|] [|] [|] [|] [|]]; vm_compute; congruence.
Qed.

Lemma rstrip_identifier (n : string) :
  forallb_string is_ident_char n = true -> rstrip n = n.
Proof.
  induction n as [|a n IH]; simpl; intros H; [reflexivity|].
  apply andb_prop in H as [Ha Hn].
  rewrite (IH Hn), (ident_char_not_space _ Ha). reflexivity.
Qed.

Lemma rstrip_head (post : string) :
  ends_identifier post -> ends_identifier (rstrip post).
Proof.
  destruct post as [|c r]; simpl; intros H; [exact I|].
  destruct (is_space c && is_empty (rstrip r)); simpl; [exact I | exact H].
Qed.

Lemma strip_keeps_reference (expr n : string) :
  contains_reference expr n -> contains_reference (strip expr) n.
Proof.
  intros (pre & post & -> & Hid & Hpost).
  destruct Hid as [Hstart Hn].
  assert (Hne : is_empty n = false) by (destruct n; [discriminate | reflexivity]).
  exists (lstrip pre), (rstrip post).
  split; [|split; [split; assumption | apply rstrip_head; exact Hpost]].
  unfold strip. rewrite lstrip_app by reflexivity.
  change (lstrip pre ++ String ":" (n ++ post))%string
    with (lstrip pre ++ (String ":" EmptyString ++ (n ++ post)))%string.
  rewrite <- !append_assoc.
  rewrite rstrip_app.
  destruct (is_empty (rstrip post)) eqn:He.
  - rewrite rstrip_app, (rstrip_identifier n Hn), Hne.
    destruct (rstrip post); [|discriminate].
    rewrite append_nil_r, append_assoc. reflexivity.
  - rewrite !append_assoc. reflexivity.
Qed.

Lemma forallb_string_lstrip (p : ascii -> bool) (s : string) :
  forallb_string p s = true -> forallb_string p (lstrip s) = true.
Proof.
  induction s as [|a s IH]; simpl; intros H; [reflexivity|].
  apply andb_prop in H as [Ha Hs].
  destruct (is_space a); [auto | simpl; rewrite Ha, Hs; reflexivity].
Qed.

Lemma forallb_string_rstrip (p : ascii -> bool) (s : string) :
  forallb_string p s = true -> forallb_string p (rstrip s) = true.
Proof.
  induction s as [|a s IH]; simpl; intros H; [reflexivity|].
  apply andb_prop in H as [Ha Hs].
  destruct (is_space a && is_empty (rstrip s)); simpl; [reflexivity|].
  rewrite Ha, (IH Hs). reflexivity.
Qed.

Lemma contains_reference_nonempty (s n : string) :
  contains_reference s n -> is_empty s = false.
Proof. intros (pre & post & -> & _). destruct pre; reflexivity. Qed.

(** The substitution raises on the first reference that is not a column. *)
Lemma substitute_unknown (df_cols : list string) (ps : list piece) (n : string) :
  In n (field_refs ps) -> mem n df_cols = false ->
  exists n', In n' (field_refs ps) /\ mem n' df_cols = false
             /\ substitute df_cols ps = Raise (KeyError_unknown_column n').
Proof.
  unfold substitute. induction ps as [|[t|m] ps IH]; simpl; intros Hin Hn.
  - contradiction.
  - destruct (IH Hin Hn) as (n' & Hin' & Hn' & Hr).
    exists n'. repeat split; try assumption.
    destruct (mapM (render df_cols) ps); simpl in *; [discriminate | exact Hr].
  - destruct (mem m df_cols) eqn:Hm.
    + destruct Hin as [->|Hin]; [congruence|].
      destruct (IH Hin Hn) as (n' & Hin' & Hn' & Hr).
      exists n'. repeat split; try (right; assumption); try assumption.
      simpl. destruct (mapM (render df_cols) ps); simpl in *; [discriminate | exact Hr].
    + exists m. repeat split; [left; reflexivity | exact Hm].
Qed.

(** An expression of allowed characters with a reference to an unknown field
    never reaches [eval]. *)
Lemma unknown_field_rejected (expr : string) (df_cols : list string) (n : string) :
  contains_reference expr n -> mem n df_cols = false ->
  forallb_string allowed_char expr = true ->
  exists n', In n' (field_refs (finditer (strip expr))) /\ mem n' df_cols = false
             /\ code_of expr df_cols = Raise (KeyError_unknown_column n').
Proof.
  intros Href Hn Hall.
  apply strip_keeps_reference in Href.
  assert (Hne := contains_reference_nonempty _ _ Href).
  destruct Href as (pre & post & Hs & Hid & Hpost).
  assert (Hin : In n (field_refs (finditer (strip expr)))).
  { unfold finditer. rewrite Hs. apply scan_finds_reference; assumption. }
  destruct (substitute_unknown df_cols _ n Hin Hn) as (n' & Hin' & Hn' & Hr).
  exists n'. repeat split; try assumption.
  unfold code_of, fullmatch_allowed, strip in *.
  rewrite Hne, (forallb_string_rstrip _ _ (forallb_string_lstrip _ _ Hall)).
  simpl. rewrite Hr. reflexivity.
Qed.

Lemma forallb_string_witness (p : ascii -> bool) (s : string) :
  forallb_string p s = false -> exists c, In c (chars s) /\ p c = false.
Proof.
  induction s as [|a s IH]; simpl; intros H; [discriminate|].
  destruct (p a) eqn:Ha.
  - destruct (IH H) as (c & Hin & Hc). exists c. split; [right|]; assumption.
  - exists a. split; [left; reflexivity | exact Ha].
Qed.

Lemma to_polars_rejected (pyobj : Type) (py_eval : string -> option pyobj)
    (expr : string) (df_cols : list string) (e : exn) :
  code_of expr df_cols = Raise e -> to_polars pyobj py_eval expr df_cols = Raise e.
Proof. unfold to_polars. intros ->. reflexivity. Qed.

(** C2. Whatever evaluator [to_polars] is run with: an expression with a
    character outside the allowed class fails with IllegalExpressionError; an
    expression with a reference [:name] to a field that is not among the
    known fields fails, with UnknownFieldError when its characters are all
    allowed and with IllegalExpressionError otherwise (the character check
    comes first); in each case the failure is raised while the text for
    [eval] is being built ([code_of]), so nothing is evaluated. *)
Theorem C2_rejected_at_compile_time (pyobj : Type) (py_eval : string -> option pyobj)
    (expr : string) (known_fields : list string) :
  (forall c, In c (chars expr) -> allowed_char c = false ->
     code_of expr known_fields = Raise IllegalExpressionError
     /\ to_polars pyobj py_eval expr known_fields = Raise IllegalExpressionError)
  /\ (forall name, contains_reference expr name -> mem name known_fields = false ->
        forallb_string allowed_char expr = true ->
        exists name', In name' (field_refs (finditer (strip expr)))
          /\ mem name' known_fields = false
          /\ code_of expr known_fields = Raise (UnknownFieldError name')
          /\ to_polars pyobj py_eval expr known_fields = Raise (UnknownFieldError name'))
  /\ (forall name, contains_reference expr name -> mem name known_fields = false ->
        exists e, code_of expr known_fields = Raise e
          /\ to_polars pyobj py_eval expr known_fields = Raise e
          /\ (e = IllegalExpressionError
              \/ exists name', mem name' known_fields = false /\ e = UnknownFieldError name')).
Proof.
  split; [|split].
  - intros c Hin Hc.
    assert (H := illegal_character_rejected expr known_fields c Hin Hc).
    split; [exact H | apply to_polars_rejected; exact H].
  - intros name Href Hname Hall.
    destruct (unknown_field_rejected expr known_fields name Href Hname Hall)
      as (name' & Hin & Hn' & Hr).
    exists name'. repeat split; try assumption.
    apply to_polars_rejected; exact Hr.
  - intros name Href Hname.
    destruct (forallb_string allowed_char expr) eqn:Hall.
    + destruct (unknown_field_rejected expr known_fields name Href Hname Hall)
        as (name' & Hin & Hn' & Hr).
      exists (UnknownFieldError name'). repeat split.
      * exact Hr.
      * apply to_polars_rejected; exact Hr.
      * right. exists name'. split; [exact Hn' | reflexivity].
    + destruct (forallb_string_witness _ _ Hall) as (c & Hin & Hc).
      assert (H := illegal_character_rejected expr known_fields c Hin Hc).
      exists IllegalExpressionError. repeat split.
      * exact H.
      * apply to_polars_rejected; exact H.
      * left. reflexivity.
Qed.

(** The fourth scenario of the spec, and a reference to a field the batch
    does not have. *)
Lemma C2_witness :
  PyModel.to_polars ":gross_amount; DROP TABLE x" Engine.df_cols
    = Raise IllegalExpressionError
  /\ exists name', PyModel.to_polars ":gross_amount - :discount" Engine.df_cols
                     = Raise (UnknownFieldError name').
Proof.
  split.
  - apply (proj1 (C2_rejected_at_compile_time PyModel.pyobj PyModel.py_eval
                    ":gross_amount; DROP TABLE x" Engine.df_cols) ";"%char).
    + vm_compute. repeat (first [left; reflexivity | right]).
    + reflexivity.
  - destruct (proj1 (proj2 (C2_rejected_at_compile_time PyModel.pyobj PyModel.py_eval
                    ":gross_amount - :discount" Engine.df_cols)) "discount")
      as (name' & _ & _ & _ & H).
    + exists ":gross_amount - ", EmptyString. repeat split.
    + reflexivity.
    + reflexivity.
    + exists name'. exact H.
Defined.

(** C3. [to_polars] accepts expressions that are not of the closed grammar:
    the text [pl.lit(1)] has only allowed characters and no reference, so it
    is handed to [eval] as it is and [eval] returns the expression object of
    the call; [:gross_amount.sum()] is accepted likewise, as a method call on
    the column. *)
Theorem C3_accepts_outside_closed_grammar :
  (code_of "pl.lit(1)" Engine.df_cols = Ok "pl.lit(1)"
   /\ PyModel.to_polars "pl.lit(1)" Engine.df_cols
        = Ok (PyModel.PyExpr (PyModel.Lit 1))
   /\ in_closed_grammar "pl.lit(1)" Engine.df_cols = false)
  /\ (PyModel.to_polars ":gross_amount.sum()" Engine.df_cols
        = Ok (PyModel.PyExpr (PyModel.Method (PyModel.Col "gross_amount") "sum" []))
      /\ in_closed_grammar ":gross_amount.sum()" Engine.df_cols = false).
Proof. repeat split; reflexivity. Qed.

End ExprFacts.

(** ** [ORDER BY] *)

Section SortFacts.
Variable A : Type.
Variable le : A -> A -> bool.

Lemma In_insert_by (x a : A) (l : list A) :
  In a (insert_by le x l) <-> a = x \/ In a l.
Proof.
  induction l as [|y l IH]; simpl.
  - intuition.
  - destruct (le x y); simpl; [intuition | rewrite IH; intuition].
Qed.

Lemma In_order_by (a : A) (l : list A) : In a (order_by le l) <-> In a l.
Proof.
  induction l as [|x l IH]; simpl; [reflexivity|].
  rewrite In_insert_by, IH. intuition.
Qed.

Lemma length_insert_by (x : A) (l : list A) :
  List.length (insert_by le x l) = S (List.length l).
Proof.
  induction l as [|y l IH]; simpl; [reflexivity|].
  destruct (le x y); simpl; [reflexivity | rewrite IH; reflexivity].
Qed.

Lemma length_order_by (l : list A) : List.length (order_by le l) = List.length l.
Proof.
  induction l as [|x l IH]; simpl; [reflexivity|].
  rewrite length_insert_by, IH. reflexivity.
Qed.

Hypothesis le_total : forall a b, le a b = true \/ le b a = true.
Hypothesis le_trans : forall a b c, le a b = true -> le b c = true -> le a c = true.


Lemma head_first_insert (x : A) (l : list A) :
  head_first le l -> head_first le (insert_by le x l).
Proof.
  destruct l as [|h l]; simpl; intros H.
  - intros y [<-|[]]. destruct (le_total x x); assumption.
  - destruct (le x h) eqn:Hxh; simpl.
    + intros y [<-|Hy].
      * destruct (le_total x x); assumption.
      * apply le_trans with h; [exact Hxh | apply H; exact Hy].
    + intros y [<-|Hy].
      * apply H. left. reflexivity.
      * apply In_insert_by in Hy as [->|Hy].
        -- destruct (le_total h x) as [Hhx|Hhx]; [exact Hhx | congruence].
        -- apply H. right. exact Hy.
Qed.

Lemma head_first_order_by (l : list A) : head_first le (order_by le l).
Proof.
  induction l as [|x l IH]; simpl; [exact I|].
  apply head_first_insert. exact IH.
Qed.

Lemma fetchone_first (l : list A) (x : A) :
  Templates.fetchone (order_by le l) = Some x ->
  In x l /\ forall y, In y l -> le x y = true.
Proof.
  intros H. assert (Hh := head_first_order_by l).
  destruct (order_by le l) as [|h s] eqn:Hs; simpl in H; [discriminate|].
  injection H as ->. split.
  - apply In_order_by. rewrite Hs. left. reflexivity.
  - intros y Hy. apply Hh. rewrite <- Hs. apply In_order_by. exact Hy.
Qed.

End SortFacts.

(** ** templates.py *)

Module TemplatesFacts.
Import Templates Spec.

Lemma order_le_total (a b : journal_template * journal_template_match) :
  order_le a b = true \/ order_le b a = true.
Proof.
  unfold order_le.
  rewrite !orb_true_iff, !andb_true_iff, !orb_true_iff, !andb_true_iff,
    !Z.ltb_lt, !Z.eqb_eq, !Z.leb_le.
  lia.
Qed.

Lemma order_le_trans (a b c : journal_template * journal_template_match) :
  order_le a b = true -> order_le b c = true -> order_le a c = true.
Proof.
  unfold order_le.
  rewrite !orb_true_iff, !andb_true_iff, !orb_true_iff, !andb_true_iff,
    !Z.ltb_lt, !Z.eqb_eq, !Z.leb_le.
  lia.
Qed.

Lemma null_int_wildcard (col : option string) :
  (null_int col = 1%Z /\ wildcard col) \/ (null_int col = 0%Z /\ ~ wildcard col).
Proof.
  destruct col; [right | left]; split; try reflexivity. discriminate.
Qed.

Lemma order_le_not_after (a b : journal_template * journal_template_match) :
  order_le a b = true -> not_after (snd a) (snd b).
Proof.
  unfold order_le, not_after.
  rewrite !orb_true_iff, !andb_true_iff, !orb_true_iff, !andb_true_iff,
    !Z.ltb_lt, !Z.eqb_eq, !Z.leb_le.
  destruct (null_int_wildcard (m_product_code (snd a))) as [[-> Ha]|[-> Ha]],
           (null_int_wildcard (m_product_code (snd b))) as [[-> Hb]|[-> Hb]],
           (null_int_wildcard (m_channel (snd a))) as [[-> Hc]|[-> Hc]],
           (null_int_wildcard (m_channel (snd b))) as [[-> Hd]|[-> Hd]];
    intros H; try lia;
    (destruct H as [H|[H H']]; [left; exact H | right; split; [exact H|]]);
    try (left; split; assumption); try (right; tauto); lia.
Qed.

Lemma eq_or_null_spec (col : option string) (arg : string) :
  eq_or_null col arg = true <-> col = Some arg \/ col = None.
Proof.
  destruct col as [v|]; simpl.
  - rewrite String.eqb_eq. split.
    + intros ->. left. reflexivity.
    + intros [[= ->]|[=]]. reflexivity.
  - split; [right; reflexivity | reflexivity].
Qed.

(** The rows the query keeps are those the spec describes. *)
Lemma where_selects (db : store) (txn_type product_code channel : string)
    (txn_date : date) (t : journal_template) (m : journal_template_match) :
  In (t, m) (filter (where_clause txn_type product_code channel txn_date) (joined db))
  <-> selects db txn_type product_code channel txn_date t m.
Proof.
  rewrite filter_In. unfold joined, selects, where_clause, join_on.
  rewrite in_flat_map, !andb_true_iff, !String.eqb_eq, !eq_or_null_spec.
  split.
  - intros [(t' & Ht' & Hin) H].
    apply in_map_iff in Hin as (m' & [= <- <-] & Hm').
    apply filter_In in Hm' as [Hm' Hj].
    rewrite andb_true_iff, !String.eqb_eq in Hj.
    tauto.
  - intros (Ht & Hm & Hc & Hv & H). split; [|tauto].
    exists t. split; [exact Ht|].
    apply in_map. apply filter_In. split; [exact Hm|].
    rewrite andb_true_iff, !String.eqb_eq. tauto.
Qed.

(** C8. Template resolution. If no joined row of a template and a match row
    has the transaction type exactly, status ACTIVE, the date within
    [effective_date, expiry_date), and product and channel each matched
    exactly or by a wildcard, resolution raises NoActiveTemplateError. A
    returned template is the template of such a row, and that row is not
    after any other such row in the order: ascending priority, then a
    non-wildcard product, then a non-wildcard channel. When some row is
    selected, a first one is, and resolution returns its template whenever
    its code and version hold no apostrophe. *)
Theorem C8_template_resolution
    (read_spliced : store -> string -> string -> result template_rows)
    (db : store) (txn_type product_code channel : string) (as_of_date : date) :
  ((forall t m, ~ selects db txn_type product_code channel as_of_date t m) ->
   load_active_template read_spliced db txn_type product_code channel as_of_date
   = Raise NoActiveTemplateError)
  /\ (forall tpl,
        load_active_template read_spliced db txn_type product_code channel as_of_date
        = Ok tpl ->
        exists t m,
          selects db txn_type product_code channel as_of_date t m
          /\ template_code tpl = t_template_code t
          /\ template_version tpl = t_template_version t
          /\ forall t' m',
               selects db txn_type product_code channel as_of_date t' m' ->
               not_after m m')
  /\ (forall t0 m0,
        selects db txn_type product_code channel as_of_date t0 m0 ->
        exists t m,
          selects db txn_type product_code channel as_of_date t m
          /\ (forall t' m',
                selects db txn_type product_code channel as_of_date t' m' ->
                not_after m m')
          /\ (quoted_as_is (t_template_code t) = true ->
              quoted_as_is (t_template_version t) = true ->
              exists tpl,
                load_active_template read_spliced db txn_type product_code channel
                  as_of_date = Ok tpl
                /\ template_code tpl = t_template_code t
                /\ template_version tpl = t_template_version t)).
Proof.
  unfold load_active_template, matching_rows.
  destruct (fetchone _) as [[t m]|] eqn:Hf.
  - apply (fetchone_first _ _ order_le_total order_le_trans) in Hf as [Hin Hfirst].
    assert (Hsel : selects db txn_type product_code channel as_of_date t m)
      by (apply where_selects; exact Hin).
    assert (Hmin : forall t' m',
               selects db txn_type product_code channel as_of_date t' m' ->
               not_after m m').
    { intros t' m' Hsel'. apply where_selects in Hsel'.
      apply (order_le_not_after (t, m) (t', m')). apply Hfirst. exact Hsel'. }
    split; [|split].
    + intros Hnone. exfalso. exact (Hnone t m Hsel).
    + intros tpl H. exists t, m.
      destruct (read_rows read_spliced db (t_template_code t) (t_template_version t))
        as [[[ls cs] ctrl]|e]; [|discriminate H].
      cbn in H. injection H as <-.
      split; [exact Hsel|]. split; [reflexivity|]. split; [reflexivity|exact Hmin].
    + intros t0 m0 _. exists t, m. split; [exact Hsel|]. split; [exact Hmin|].
      intros Hc Hv. unfold read_rows. rewrite Hc, Hv. cbn.
      eexists. split; [reflexivity|]. split; reflexivity.
  - assert (Hnone : forall t m,
               ~ selects db txn_type product_code channel as_of_date t m).
    { intros t m Hsel. apply where_selects in Hsel.
      apply (In_order_by _ order_le) in Hsel.
      unfold fetchone in Hf.
      destruct (order_by order_le _); [contradiction | discriminate]. }
    split; [|split].
    + reflexivity.
    + intros tpl H. discriminate H.
    + intros t0 m0 Hsel. exfalso. exact (Hnone t0 m0 Hsel).
Qed.

(** The rule set of the examples: a claim payment resolves to nothing, a
    premium of LIFE01 resolves to PREM. *)
Lemma C8_witness :
  load_active_template (read_spliced Model.runtime_model) Examples.rules
    "CLAIM_PAID" "LIFE01" "AGENCY" Examples.oct5 = Raise NoActiveTemplateError
  /\ (exists t m,
        selects Examples.rules "PREMIUM_RECEIPT" "LIFE01" "AGENCY" Examples.oct5 t m
        /\ t_template_code t = "PREM")
  /\ (exists t m,
        selects Examples.rules "PREMIUM_RECEIPT" "INV01" "INBRANCH" Examples.oct5 t m
        /\ forall t' m',
             selects Examples.rules "PREMIUM_RECEIPT" "INV01" "INBRANCH" Examples.oct5
               t' m' -> not_after m m').
Proof.
  split; [|split].
  - apply (proj1 (C8_template_resolution (read_spliced Model.runtime_model)
                    Examples.rules "CLAIM_PAID" "LIFE01" "AGENCY" Examples.oct5)).
    intros t m (Ht & _ & _ & _ & Hty & _).
    destruct Ht as [<-|[<-|[]]]; discriminate Hty.
  - destruct (proj1 (proj2 (C8_template_resolution (read_spliced Model.runtime_model)
                              Examples.rules "PREMIUM_RECEIPT" "LIFE01" "AGENCY"
                              Examples.oct5))
                (MoreExamples.load_or_empty Examples.rules) eq_refl)
      as (t & m & Hsel & Hcode & _).
    exists t, m. split; [exact Hsel|]. rewrite <- Hcode. reflexivity.
  - destruct (proj2 (proj2 (C8_template_resolution (read_spliced Model.runtime_model)
                              Examples.rules "PREMIUM_RECEIPT" "INV01" "INBRANCH"
                              Examples.oct5))
                (mktemplate "PREM" "1" "PREMIUM_RECEIPT" "ACTIVE"
                   Examples.y2025 Examples.y2026)
                (mkmatch 1 "PREM" "1" None None 10))
      as (t & m & Hsel & Hmin & _).
    + unfold selects. cbn. repeat split; auto.
    + exists t, m. split; assumption.
Defined.

(** A selected row whose code holds an apostrophe: the answer is the store's
    to the spliced text, here a syntax error, and not
    NoActiveTemplateError. *)
Lemma apostrophe_in_code :
  load_active_template (read_spliced Model.runtime_model) Examples.rules_apostrophe
    "PREMIUM_RECEIPT" "LIFE01" "AGENCY" Examples.oct5 = Raise Model.syntax_error.
Proof. reflexivity. Qed.

End TemplatesFacts.


(** ** engine.py *)

Module EngineFacts.
Import Templates Engine.

(** The [with_columns] of lines 24-28 reads a column the batch does not
    have. *)
Lemma with_columns_raises :
  resolve txn_columns columns_read_24_28 = Raise (PolarsError "ColumnNotFoundError").
Proof. reflexivity. Qed.

Section Facts.
Variable R : runtime.

(** A non-empty batch gets as far as the resolver lets it, and then to the
    [with_columns]. *)
Lemma expand_nonempty (db : store) (run_id created_by : string)
    (any_row : txn) (rest : list txn) :
  expand_transactions R db run_id (any_row :: rest) created_by
  = do _ <- load_active_template (read_spliced R) db (txn_type any_row)
              (product_code any_row) (channel any_row) (bank_value_date any_row);
    Raise (PolarsError "ColumnNotFoundError").
Proof.
  unfold expand_transactions.
  destruct (load_active_template _ _ _ _ _ _); reflexivity.
Qed.

Lemma expand_nonempty_raises (db : store) (run_id created_by : string)
    (any_row : txn) (rest : list txn) :
  is_ok (expand_transactions R db run_id (any_row :: rest) created_by) = false.
Proof.
  rewrite expand_nonempty.
  destruct (load_active_template _ _ _ _ _ _); reflexivity.
Qed.

Lemma expand_resolved (db : store) (run_id created_by : string)
    (any_row : txn) (rest : list txn) (tpl : template) :
  load_active_template (read_spliced R) db (txn_type any_row) (product_code any_row)
    (channel any_row) (bank_value_date any_row) = Ok tpl ->
  expand_transactions R db run_id (any_row :: rest) created_by
  = Raise (PolarsError "ColumnNotFoundError").
Proof. intros H. rewrite expand_nonempty, H. reflexivity. Qed.

(** C1. The balance check is never reached. Whenever a template is resolved
    for a non-empty batch, whatever its lines and its control record, the
    expansion raises ColumnNotFoundError at the [with_columns] of lines
    24-28: it does not raise UnbalancedJournalError, however far the debit
    and credit sums of the batch would be apart. *)
Theorem C1_balance_check_never_reached (db : store) (run_id created_by : string)
    (any_row : txn) (rest : list txn) (tpl : template) :
  load_active_template (read_spliced R) db (txn_type any_row) (product_code any_row)
    (channel any_row) (bank_value_date any_row) = Ok tpl ->
  expand_transactions R db run_id (any_row :: rest) created_by
  = Raise (PolarsError "ColumnNotFoundError")
  /\ expand_transactions R db run_id (any_row :: rest) created_by
     <> Raise UnbalancedJournalError.
Proof.
  intros H. rewrite (expand_resolved _ _ _ _ _ _ H).
  split; [reflexivity|discriminate].
Qed.



End Facts.

Lemma load_same_store (R R' : runtime) (db : store)
    (txn_type product_code channel : string) (txn_date : date) :
  (forall db code version,
      read_spliced R db code version = read_spliced R' db code version) ->
  load_active_template (read_spliced R) db txn_type product_code channel txn_date
  = load_active_template (read_spliced R') db txn_type product_code channel txn_date.
Proof.
  intros H. unfold load_active_template, read_rows.
  destruct (fetchone _) as [[t m]|]; [|reflexivity].
  rewrite H. reflexivity.
Qed.

(** C6. The loop over the template lines never runs. The outcome of an
    expansion does not depend on what the code does from line 24 on: two
    runtimes over the same store give the same outcome on every batch, and
    no non-empty batch returns, so no row is kept, rounded or dropped. *)
Theorem C6_line_loop_never_runs (R R' : runtime) (db : store)
    (run_id created_by : string) (df_txn : list txn) :
  (forall db code version,
      read_spliced R db code version = read_spliced R' db code version) ->
  expand_transactions R db run_id df_txn created_by
  = expand_transactions R' db run_id df_txn created_by
  /\ (df_txn <> [] ->
      is_ok (expand_transactions R db run_id df_txn created_by) = false).
Proof.
  intros H. destruct df_txn as [|any_row rest].
  - split; [reflexivity|]. intros Hne. congruence.
  - split; [|intros _; apply expand_nonempty_raises].
    rewrite !expand_nonempty, (load_same_store R R' db _ _ _ _ H). reflexivity.
Qed.

(** The fifth scenario of the spec: the two lines differ by 0.02 under a
    tolerance of 0.01. *)
Lemma C1_witness :
  Examples.expand Examples.rules_unbalanced [Examples.txn_unbalanced]
  = Raise (PolarsError "ColumnNotFoundError")
  /\ Examples.expand Examples.rules_unbalanced [Examples.txn_unbalanced]
     <> Raise UnbalancedJournalError.
Proof.
  apply (C1_balance_check_never_reached Model.runtime_model Examples.rules_unbalanced
           "run-1" "system" Examples.txn_unbalanced []
           (MoreExamples.load_or_empty Examples.rules_unbalanced)).
  reflexivity.
Defined.


(** The third scenario of the spec, a row of another channel under the rule
    set with a conditional line: the outcome is the same when the remainder
    of the expansion would return. *)
Lemma C6_witness :
  Engine.expand_transactions Model.runtime_model Examples.rules "run-1"
    [Examples.txn_branch] "system"
  = Engine.expand_transactions Model.runtime_returning Examples.rules "run-1"
      [Examples.txn_branch] "system"
  /\ is_ok (Examples.expand Examples.rules [Examples.txn_branch]) = false.
Proof.
  destruct (C6_line_loop_never_runs Model.runtime_model Model.runtime_returning
              Examples.rules "run-1" "system" [Examples.txn_branch])
    as [Hsame Hraise].
  - reflexivity.
  - split; [exact Hsame|]. apply Hraise. discriminate.
Defined.


End EngineFacts.

(** ** Conditions *)

Module ConditionFacts.
Import Templates Engine Expr Spec.





End ConditionFacts.

(** ** db.py, posting.py *)

Module PostingFacts.
Import Engine Ledger.

Lemma select_columns (names : list string) (df h : frame) :
  select names df = Ok h -> map fst h = names.
Proof.
  unfold select. revert h.
  induction names as [|n names IH]; intros h H.
  - injection H as <-. reflexivity.
  - cbn [mapM] in H.
    destruct (frame_column n df) as [cells|]; [|discriminate H].
    cbn [bind] in H.
    destruct (mapM _ names) as [h'|e]; [|discriminate H].
    cbn [bind] in H. injection H as <-. cbn. f_equal. apply IH. reflexivity.
Qed.




End PostingFacts.

(** ** balances.py *)

Module BalanceFacts.
Import Ledger.

(** C9. The statement of [update_month_balance] cannot run: the select list
    of its INSERT refers to [m.account_code], [m.fund], [m.debit] and
    [m.credit], and the SELECT has no FROM clause that binds [m]; for every
    store and period the call raises the database's undefined-table error
    and leaves the store, and so the snapshot table, unchanged. *)
Theorem C9_statement_binds_no_alias (db : database) (now year month : nat) :
  update_month_balance db now year month = (db, Raise undefined_table).
Proof. reflexivity. Qed.

(** *** The statement with [FROM mvt m] *)

Lemma date_eqb_eq (a b : date) : date_eqb a b = true <-> a = b.
Proof.
  destruct a as [y m d], b as [y' m' d']. unfold date_eqb. simpl.
  rewrite !andb_true_iff, !Nat.eqb_eq. split.
  - intros [[-> ->] ->]. reflexivity.
  - intros [= -> -> ->]. auto.
Qed.

Lemma same_snapshot_key_iff (a b : account_balance_snapshot) :
  same_snapshot_key a b = true <-> snapshot_key a = snapshot_key b.
Proof.
  unfold same_snapshot_key, snapshot_key.
  rewrite !andb_true_iff, date_eqb_eq, !String.eqb_eq. split.
  - intros [[-> ->] ->]. reflexivity.
  - intros [= -> -> ->]. auto.
Qed.

Lemma same_snapshot_key_by_key (a a' b b' : account_balance_snapshot) :
  snapshot_key a = snapshot_key a' -> snapshot_key b = snapshot_key b' ->
  same_snapshot_key a b = same_snapshot_key a' b'.
Proof.
  intros Ha Hb.
  destruct (same_snapshot_key a b) eqn:H1, (same_snapshot_key a' b') eqn:H2;
    try reflexivity.
  - apply same_snapshot_key_iff in H1.
    assert (H : same_snapshot_key a' b' = true)
      by (apply same_snapshot_key_iff; congruence).
    congruence.
  - apply same_snapshot_key_iff in H2.
    assert (H : same_snapshot_key a b = true)
      by (apply same_snapshot_key_iff; congruence).
    congruence.
Qed.


Lemma replaced_key (old new : account_balance_snapshot) :
  snapshot_key
    (mksnapshot (period_start old) (s_account_code old) (s_fund old)
       (opening_balance old) (debit new) (credit new) (closing_balance new)
       (calculated_at new))
  = snapshot_key old.
Proof. reflexivity. Qed.

Lemma holds_upsert (r : account_balance_snapshot) (table : list account_balance_snapshot) :
  holds (upsert r table) r.
Proof.
  unfold holds, stored. induction table as [|old table IH]; cbn [upsert find].
  - assert (H : same_snapshot_key r r = true)
      by (apply same_snapshot_key_iff; reflexivity).
    rewrite H. exists r. split; reflexivity.
  - destruct (same_snapshot_key old r) eqn:Hk; cbn [find].
    + rewrite (same_snapshot_key_by_key _ old r r (replaced_key old r) eq_refl), Hk.
      eexists. split; reflexivity.
    + rewrite Hk. exact IH.
Qed.

Lemma holds_upsert_other (r r' : account_balance_snapshot)
    (table : list account_balance_snapshot) :
  snapshot_key r <> snapshot_key r' -> holds table r -> holds (upsert r' table) r.
Proof.
  intros Hne. unfold holds, stored.
  induction table as [|old table IH]; cbn [upsert find]; intros (x & Hx & Hv).
  - discriminate Hx.
  - destruct (same_snapshot_key old r') eqn:Hk'; cbn [find].
    + rewrite (same_snapshot_key_by_key _ old r r (replaced_key old r') eq_refl).
      destruct (same_snapshot_key old r) eqn:Hk.
      * exfalso. apply Hne.
        apply same_snapshot_key_iff in Hk, Hk'. congruence.
      * exists x. split; assumption.
    + destruct (same_snapshot_key old r) eqn:Hk.
      * exists x. split; assumption.
      * apply IH. exists x. split; assumption.
Qed.

(** Upserting a row that is in the table changes no value. *)
Lemma upsert_values (r : account_balance_snapshot) (table : list account_balance_snapshot) :
  holds table r -> map snapshot_values (upsert r table) = map snapshot_values table.
Proof.
  unfold holds, stored.
  induction table as [|old table IH]; cbn [upsert find map]; intros (x & Hx & Hv).
  - discriminate Hx.
  - destruct (same_snapshot_key old r) eqn:Hk; cbn [map].
    + injection Hx as <-. f_equal.
      unfold snapshot_values, snapshot_key, snapshot_amounts in *. cbn.
      injection Hv as -> -> ->. reflexivity.
    + f_equal. apply IH. exists x. split; assumption.
Qed.

Lemma holds_by_values (t t' : list account_balance_snapshot)
    (r r' : account_balance_snapshot) :
  map snapshot_values t = map snapshot_values t' ->
  snapshot_key r = snapshot_key r' -> snapshot_amounts r = snapshot_amounts r' ->
  holds t r -> holds t' r'.
Proof.
  intros Ht Hk Ha. unfold holds, stored. revert t' Ht.
  induction t as [|old t IH]; intros [|old' t'] Ht; cbn [find]; intros (x & Hx & Hv);
    try discriminate.
  cbn [map] in Ht.
  assert (Hold : snapshot_values old = snapshot_values old')
    by (exact (f_equal (hd (snapshot_values old)) Ht)).
  assert (Htl : map snapshot_values t = map snapshot_values t')
    by (exact (f_equal (@tl _) Ht)).
  assert (Hkey : snapshot_key old = snapshot_key old')
    by (exact (f_equal (fun v => fst (fst v)) Hold)).
  assert (Hamt : snapshot_amounts old = snapshot_amounts old')
    by (exact (f_equal snd Hold)).
  rewrite <- (same_snapshot_key_by_key old old' r r' Hkey Hk).
  destruct (same_snapshot_key old r).
  - injection Hx as <-. exists old'. split; [reflexivity|]. congruence.
  - apply (IH t' Htl). exists x. split; assumption.
Qed.

Lemma fold_upsert_values (rows table : list account_balance_snapshot) :
  (forall r, In r rows -> holds table r) ->
  map snapshot_values (fold_left (fun t r => upsert r t) rows table)
  = map snapshot_values table.
Proof.
  revert table. induction rows as [|r rows IH]; simpl; intros table H; [reflexivity|].
  assert (Hr := upsert_values r table (H r (or_introl eq_refl))).
  rewrite IH; [exact Hr|].
  intros r2 H2. apply (holds_by_values table _ r2 r2); auto.
Qed.

Lemma holds_fold_other (rows : list account_balance_snapshot)
    (table : list account_balance_snapshot) (r : account_balance_snapshot) :
  (forall r', In r' rows -> snapshot_key r <> snapshot_key r') ->
  holds table r -> holds (fold_left (fun t r => upsert r t) rows table) r.
Proof.
  revert table. induction rows as [|r' rows IH]; simpl; intros table Hne H; [exact H|].
  apply IH; [intros; apply Hne; right; assumption|].
  apply holds_upsert_other; [apply Hne; left; reflexivity | exact H].
Qed.

Lemma holds_fold (rows : list account_balance_snapshot)
    (table : list account_balance_snapshot) :
  NoDup (map snapshot_key rows) ->
  forall r, In r rows -> holds (fold_left (fun t r => upsert r t) rows table) r.
Proof.
  revert table. induction rows as [|r0 rows IH]; simpl; intros table Hnd r Hin;
    [contradiction|].
  inversion Hnd as [|k ks Hnotin Hnd']; subst.
  destruct Hin as [->|Hin].
  - apply holds_fold_other; [|apply holds_upsert].
    intros r' Hr' Heq. apply Hnotin. rewrite Heq. apply in_map. exact Hr'.
  - apply IH; assumption.
Qed.

Lemma same_account_iff (a b : string * string) : same_account a b = true <-> a = b.
Proof.
  destruct a, b. unfold same_account. simpl.
  rewrite andb_true_iff, !String.eqb_eq. split.
  - intros [-> ->]. reflexivity.
  - intros [= -> ->]. auto.
Qed.

Lemma group_keys_NoDup (ls : list ledger_entry_line) : NoDup (group_keys ls).
Proof.
  induction ls as [|l ls IH]; simpl; [constructor|].
  destruct (existsb _ (group_keys ls)) eqn:H; [exact IH|].
  constructor; [|exact IH].
  intros Hin. assert (Ht : existsb (same_account (account_of l)) (group_keys ls) = true).
  { apply existsb_exists. exists (account_of l). split; [exact Hin|].
    apply same_account_iff. reflexivity. }
  congruence.
Qed.

Lemma NoDup_map_injective {A B : Type} (f : A -> B) (l : list A) :
  (forall a b, f a = f b -> a = b) -> NoDup l -> NoDup (map f l).
Proof.
  intros Hinj. induction 1 as [|a l Hnotin Hnd IH]; simpl; constructor.
  - intros Hin. apply in_map_iff in Hin as (b & Hb & Hin).
    apply Hinj in Hb. subst b. contradiction.
  - exact IH.
Qed.

Lemma snapshot_rows_NoDup (now : nat) (start_date : date) (ls : list ledger_entry_line) :
  NoDup (map snapshot_key (map (snapshot_row now start_date ls) (group_keys ls))).
Proof.
  rewrite map_map. apply NoDup_map_injective; [|apply group_keys_NoDup].
  intros [a f] [a' f']. unfold snapshot_key. simpl. intros [= -> ->]. reflexivity.
Qed.

(** The statement with the clause runs, and inserts or updates the rows of
    [mvt]. *)
Lemma mapM_map {A B C : Type} (f : B -> result C) (g : A -> B) (l : list A) :
  mapM f (map g l) = mapM (fun a => f (g a)) l.
Proof.
  induction l as [|a l IH]; simpl; [reflexivity|]. rewrite IH. reflexivity.
Qed.

Lemma flat_map_singleton {A B : Type} (f : A -> B) (l : list A) :
  flat_map (fun a => [f a]) l = map f l.
Proof.
  induction l as [|a l IH]; simpl; [reflexivity|]. rewrite IH. reflexivity.
Qed.

Lemma from_mvt_rows (rows : list sql_row) :
  from_rows [("mvt", rows)] [("mvt", "m")] = Ok (map (fun r => [("m", r)]) rows).
Proof.
  unfold from_rows, assoc. rewrite String.eqb_refl. cbn [or_raise bind map].
  rewrite (flat_map_singleton (fun r : sql_row => [("m", r)])). reflexivity.
Qed.

Lemma insert_select_from_mvt (db : database) (now : nat) (start_date end_date : date) :
  insert_select [("mvt", "m")] db now start_date end_date
  = Ok (mkdatabase (header_unique db) (header_table db) (next_je_id db) (line_table db)
          (line_partitions db) (je_header_staging db) (je_line_staging db)
          (fold_left (fun table r => upsert r table)
             (map (snapshot_row now start_date (period_lines db start_date end_date))
                (group_keys (period_lines db start_date end_date)))
             (snapshot_table db))).
Proof.
  unfold insert_select. rewrite from_mvt_rows. unfold mvt. cbn [bind].
  set (ls := period_lines db start_date end_date).
  rewrite map_map, mapM_map.
  rewrite (mapM_ok_map _
             (fun k => [SDate start_date; SText (fst k); SText (snd k); SNum 0;
                        SNum (sum_case "DR" k ls); SNum (sum_case "CR" k ls);
                        SNum (0 + sum_case "DR" k ls - sum_case "CR" k ls);
                        STime now]))
    by (intros k _; reflexivity).
  cbn [bind]. rewrite mapM_map.
  rewrite (mapM_ok_map _ (snapshot_row now start_date ls)) by (intros k _; reflexivity).
  reflexivity.
Qed.

Lemma unique_keys_upsert (r : account_balance_snapshot)
    (table : list account_balance_snapshot) :
  unique_keys table = true -> unique_keys (upsert r table) = true.
Proof.
  assert (Hex : forall (x : account_balance_snapshot) t,
            snapshot_key x <> snapshot_key r ->
            existsb (same_snapshot_key x) (upsert r t) = existsb (same_snapshot_key x) t).
  { intros x t Hx. induction t as [|old t IH]; cbn [upsert existsb].
    - destruct (same_snapshot_key x r) eqn:H; [|reflexivity].
      apply same_snapshot_key_iff in H. contradiction.
    - destruct (same_snapshot_key old r); cbn [existsb]; [|rewrite IH; reflexivity].
      reflexivity. }
  induction table as [|old table IH]; cbn [upsert unique_keys]; intros H; [reflexivity|].
  apply andb_prop in H as [Hold Hu].
  destruct (same_snapshot_key old r) eqn:Hk; cbn [unique_keys].
  - rewrite Hu, andb_true_r. exact Hold.
  - rewrite (IH Hu), andb_true_r, Hex; [exact Hold|].
    intros Heq. apply same_snapshot_key_iff in Heq. congruence.
Qed.

Lemma unique_keys_fold (rows table : list account_balance_snapshot) :
  unique_keys table = true ->
  unique_keys (fold_left (fun t r => upsert r t) rows table) = true.
Proof.
  revert table. induction rows as [|r rows IH]; simpl; intros table H; [exact H|].
  apply IH, unique_keys_upsert, H.
Qed.

(** Had the INSERT's SELECT the clause [FROM mvt m], recompute would do what
    the spec says of it: the call returns; for every (account_code, fund)
    with a posted line in the period the snapshot table holds, under
    (period_start, account_code, fund), the debit sum, the credit sum and
    closing_balance = 0 + debit - credit; a table with one row per key keeps
    one row per key; and a second run stores the same values, only
    calculated_at differs. *)
Theorem recompute_with_from_clause (db : database) (now now' year month : nat) :
  let first := update_month_balance_from_mvt db now year month in
  let second := update_month_balance_from_mvt (fst first) now' year month in
  let start_date := month_start year month in
  let ls := period_lines db start_date (month_end year month) in
  snd first = Ok tt /\ snd second = Ok tt
  /\ (forall k, In k (group_keys ls) ->
        exists r, stored (snapshot_table (fst first)) (snapshot_row now start_date ls k)
                  = Some r
                  /\ debit r = sum_case "DR" k ls /\ credit r = sum_case "CR" k ls
                  /\ closing_balance r = (0 + debit r - credit r)%Q)
  /\ (unique_keys (snapshot_table db) = true ->
      unique_keys (snapshot_table (fst first)) = true)
  /\ map snapshot_values (snapshot_table (fst second))
     = map snapshot_values (snapshot_table (fst first)).
Proof.
  unfold update_month_balance_from_mvt. rewrite insert_select_from_mvt.
  cbn [run_statement fst snd]. rewrite insert_select_from_mvt.
  cbn [run_statement fst snd header_table line_table snapshot_table].
  set (start_date := month_start year month).
  set (end_date := month_end year month).
  change (period_lines _ start_date end_date) with (period_lines db start_date end_date).
  set (ls := period_lines db start_date end_date).
  assert (Hheld : forall now0 k, In k (group_keys ls) ->
            holds (fold_left (fun t r => upsert r t)
                     (map (snapshot_row now start_date ls) (group_keys ls))
                     (snapshot_table db))
                  (snapshot_row now0 start_date ls k)).
  { intros now0 k Hk.
    apply (holds_by_values _ _ (snapshot_row now start_date ls k) _ eq_refl);
      try reflexivity.
    apply holds_fold; [apply snapshot_rows_NoDup | apply in_map; exact Hk]. }
  split; [reflexivity|]. split; [reflexivity|]. split; [|split].
  - intros k Hk. destruct (Hheld now k Hk) as (r & Hr & Ha).
    exists r. split; [exact Hr|].
    unfold snapshot_amounts in Ha. simpl in Ha. injection Ha as -> -> ->.
    repeat split; reflexivity.
  - apply unique_keys_fold.
  - apply fold_upsert_values. intros r Hr.
    apply in_map_iff in Hr as (k & <- & Hk). apply Hheld. exact Hk.
Qed.

End BalanceFacts.

(** ** expr.py: the scan and [strip] *)

Module ExprCoverage.
Import Expr Spec.

Lemma source_cons_text (c : ascii) (ps : list piece) :
  concat_strings (map piece_source (cons_text c ps))
  = String c (concat_strings (map piece_source ps)).
Proof. destruct ps as [|[t|n] ps]; reflexivity. Qed.

Lemma is_colon_eq (c : ascii) : is_colon c = true -> c = ":"%char.
Proof. apply Ascii.eqb_eq. Qed.

Lemma scan_source (s : string) :
  concat_strings (map piece_source (outside s)) = s
  /\ forall acc, concat_strings (map piece_source (inside acc s))
                 = String ":" (acc ++ s).
Proof.
  induction s as [|c r [IHo IHi]].
  - split; [reflexivity|]. intros acc. cbn. now rewrite ExprFacts.append_nil_r.
  - assert (Hnext : concat_strings
                      (map piece_source
                         (if is_colon c && starts_ident r then inside EmptyString r
                          else cons_text c (outside r)))
                    = String c r).
    { destruct (is_colon c && starts_ident r) eqn:E.
      - apply andb_prop in E. destruct E as [E _]. apply is_colon_eq in E.
        subst c. rewrite IHi. reflexivity.
      - rewrite source_cons_text, IHo. reflexivity. }
    split.
    + exact Hnext.
    + intros acc. cbn [inside]. destruct (is_ident_char c).
      * rewrite IHi, ExprFacts.append_assoc. reflexivity.
      * cbn [map concat_strings piece_source]. rewrite Hnext. reflexivity.
Qed.

Lemma ident_start_char (c : ascii) : is_ident_start c = true -> is_ident_char c = true.
Proof.
  unfold is_ident_start, is_ident_char.
  destruct (is_alpha c), (is_underscore c), (is_digit c); simpl; auto.
Qed.

Lemma forallb_string_app (p : ascii -> bool) (a b : string) :
  forallb_string p (a ++ b) = forallb_string p a && forallb_string p b.
Proof.
  induction a as [|c a IH]; simpl; [reflexivity|].
  rewrite IH. now rewrite andb_assoc.
Qed.

Lemma identifier_snoc (acc : string) (c : ascii) :
  identifier acc -> is_ident_char c = true -> identifier (acc ++ String c EmptyString).
Proof.
  intros [Hs Ha] Hc. split.
  - now apply ExprFacts.starts_ident_app.
  - rewrite forallb_string_app, Ha. simpl. now rewrite Hc.
Qed.

(** What the scan has read of a name: nothing yet, before an identifier
    start, or an identifier. *)
Lemma scan_identifiers (s : string) :
  (forall n, In n (field_refs (outside s)) -> identifier n)
  /\ forall acc,
       (acc = EmptyString /\ starts_ident s = true) \/ identifier acc ->
       forall n, In n (field_refs (inside acc s)) -> identifier n.
Proof.
  induction s as [|c r [IHo IHi]].
  - split; [intros n []|].
    intros acc [[_ H]|H] n Hn; [discriminate H|].
    destruct Hn as [<-|[]]. exact H.
  - assert (Hnext : forall n,
               In n (field_refs
                       (if is_colon c && starts_ident r then inside EmptyString r
                        else cons_text c (outside r))) -> identifier n).
    { intros n. destruct (is_colon c && starts_ident r) eqn:E.
      - apply andb_prop in E. destruct E as [_ E].
        apply IHi. left. split; [reflexivity|exact E].
      - rewrite ExprFacts.field_refs_cons_text. apply IHo. }
    split; [exact Hnext|].
    intros acc Hacc n. cbn [inside].
    destruct (is_ident_char c) eqn:Ec.
    + apply IHi. right. destruct Hacc as [[-> Hs]|Hacc].
      * split; simpl; [exact Hs|]. now rewrite Ec.
      * now apply identifier_snoc.
    + destruct Hacc as [[_ Hs]|Hacc].
      * simpl in Hs. apply ident_start_char in Hs. congruence.
      * cbn [field_refs]. intros [<-|Hn]; [exact Hacc|now apply Hnext].
Qed.

(** X7. The scan loses nothing and invents nothing. Cutting an expression into
    text and references and writing every piece back as it stood gives the
    expression again, and the name of every reference is an identifier: a
    letter or underscore followed by letters, digits and underscores. *)
Theorem finditer_round_trip (s : string) :
  concat_strings (map piece_source (finditer s)) = s
  /\ forall name, In name (field_refs (finditer s)) -> identifier name.
Proof.
  split.
  - apply (scan_source s).
  - apply (scan_identifiers s).
Qed.

Lemma finditer_round_trip_example :
  identifier "gross_amount" /\ identifier "admin_amount".
Proof.
  split;
    apply (proj2 (finditer_round_trip ":gross_amount - :admin_amount"));
    vm_compute; tauto.
Defined.

Lemma lstrip_blank (s : string) : forallb_string is_space s = true -> lstrip s = EmptyString.
Proof.
  induction s as [|c r IH]; simpl; [reflexivity|].
  intros H. apply andb_prop in H. destruct H as [-> H]. auto.
Qed.

Lemma lstrip_head (s : string) :
  match lstrip s with
  | EmptyString => True
  | String c _ => is_space c = false
  end.
Proof.
  induction s as [|c r IH]; simpl; [exact I|].
  destruct (is_space c) eqn:E; [exact IH|exact E].
Qed.

Lemma rstrip_idempotent (s : string) : rstrip (rstrip s) = rstrip s.
Proof.
  induction s as [|c r IH]; [reflexivity|].
  cbn [rstrip]. destruct (is_space c && is_empty (rstrip r)) eqn:E; [reflexivity|].
  cbn [rstrip]. rewrite IH, E. reflexivity.
Qed.

Lemma strip_idempotent (s : string) : strip (strip s) = strip s.
Proof.
  unfold strip. pose proof (lstrip_head s) as H.
  destruct (lstrip s) as [|c r]; [reflexivity|].
  assert (E : rstrip (String c r) = String c (rstrip r)).
  { cbn [rstrip]. now rewrite H. }
  rewrite E. cbn [lstrip]. rewrite H. rewrite <- E. apply rstrip_idempotent.
Qed.

(** X9. Surrounding white space never matters, and a blank expression is
    never an amount. An expression and its stripped text compile to the same
    result, and an expression of white space only (the empty one included)
    raises the illegal-characters error although white space is on the
    allow-list. *)
Theorem to_polars_strip (pyobj : Type) (py_eval : string -> option pyobj)
    (expr : string) (df_cols : list string) :
  to_polars pyobj py_eval (strip expr) df_cols = to_polars pyobj py_eval expr df_cols
  /\ (forallb_string is_space expr = true ->
      to_polars pyobj py_eval expr df_cols = Raise ValueError_illegal_characters).
Proof.
  split.
  - unfold to_polars, code_of. now rewrite strip_idempotent.
  - intros H. unfold to_polars, code_of, strip.
    rewrite (lstrip_blank _ H). reflexivity.
Qed.

Lemma to_polars_strip_example :
  forallb_string is_space "   " = true
  /\ PyModel.to_polars "   " Engine.df_cols = Raise ValueError_illegal_characters.
Proof.
  split; [reflexivity|].
  apply (to_polars_strip PyModel.pyobj PyModel.py_eval "   " Engine.df_cols).
  reflexivity.
Defined.

End ExprCoverage.

(** ** templates.py: the bundle the resolver returns *)

Section SortCoverage.
Variable A : Type.
Variable le : A -> A -> bool.
Hypothesis le_total : forall a b, le a b = true \/ le b a = true.
Hypothesis le_trans : forall a b c, le a b = true -> le b c = true -> le a c = true.

Lemma insert_by_perm (x : A) (l : list A) : Permutation (insert_by le x l) (x :: l).
Proof.
  induction l as [|y l IH]; simpl; [apply Permutation_refl|].
  destruct (le x y); [apply Permutation_refl|].
  apply perm_trans with (y :: x :: l); [apply perm_skip; exact IH|apply perm_swap].
Qed.

Lemma order_by_perm (l : list A) : Permutation (order_by le l) l.
Proof.
  induction l as [|x l IH]; simpl; [apply perm_nil|].
  apply perm_trans with (x :: order_by le l);
    [apply insert_by_perm|apply perm_skip; exact IH].
Qed.

Lemma insert_by_sorted (x : A) (l : list A) :
  StronglySorted (fun a b => le a b = true) l ->
  StronglySorted (fun a b => le a b = true) (insert_by le x l).
Proof.
  induction 1 as [|y l Hs IH Hy]; simpl.
  - constructor; constructor.
  - destruct (le x y) eqn:E.
    + constructor; [constructor; assumption|].
      constructor; [exact E|].
      rewrite Forall_forall in Hy |- *. intros z Hz. eapply le_trans; eauto.
    + constructor; [exact IH|].
      rewrite Forall_forall in Hy |- *. intros z Hz.
      apply In_insert_by in Hz. destruct Hz as [->|Hz]; [|auto].
      destruct (le_total x y) as [H|H]; [congruence|exact H].
Qed.

Lemma order_by_sorted (l : list A) :
  StronglySorted (fun a b => le a b = true) (order_by le l).
Proof.
  induction l as [|x l IH]; simpl; [constructor|].
  apply insert_by_sorted. exact IH.
Qed.

End SortCoverage.

Module TemplatesCoverage.
Import Templates.

Lemma line_no_le_total (a b : journal_template_line) :
  line_no_le a b = true \/ line_no_le b a = true.
Proof. unfold line_no_le. rewrite !Z.leb_le. lia. Qed.

Lemma line_no_le_trans (a b c : journal_template_line) :
  line_no_le a b = true -> line_no_le b c = true -> line_no_le a c = true.
Proof. unfold line_no_le. rewrite !Z.leb_le. lia. Qed.

Lemma same_template_spec {A : Type} (code version : A -> string)
    (template_code template_version : string) (r : A) :
  same_template code version template_code template_version r = true
  <-> code r = template_code /\ version r = template_version.
Proof.
  unfold same_template. rewrite andb_true_iff, !String.eqb_eq. reflexivity.
Qed.

(** X10. The bundle of the resolved template, when neither its code nor its
    version holds an apostrophe. Its lines are the stored line
    rows of that template code and version, each once, in ascending order of
    line_no; its conditions are the stored condition rows of that code and
    version; its control record is a stored control row of that code and
    version when there is one, and otherwise a record that requires balance
    with tolerance 0.01. *)
Theorem loaded_bundle
    (read_spliced : store -> string -> string -> result template_rows)
    (db : store) (txn_type product_code channel : string)
    (txn_date : date) (tpl : template) :
  load_active_template read_spliced db txn_type product_code channel txn_date = Ok tpl ->
  quoted_as_is (template_code tpl) = true ->
  quoted_as_is (template_version tpl) = true ->
  Permutation (lines tpl)
    (filter (same_template tl_template_code tl_template_version
               (template_code tpl) (template_version tpl)) (template_lines db))
  /\ StronglySorted (fun a b => (line_no a <= line_no b)%Z) (lines tpl)
  /\ (forall rec, In rec (lines tpl) <->
        In rec (template_lines db)
        /\ tl_template_code rec = template_code tpl
        /\ tl_template_version rec = template_version tpl)
  /\ (forall c, In c (conds tpl) <->
        In c (template_conds db)
        /\ c_template_code c = template_code tpl
        /\ c_template_version c = template_version tpl)
  /\ ((In (control tpl) (template_controls db)
       /\ ctl_template_code (control tpl) = template_code tpl
       /\ ctl_template_version (control tpl) = template_version tpl)
      \/ ((forall c, In c (template_controls db) ->
             ~ (ctl_template_code c = template_code tpl
                /\ ctl_template_version c = template_version tpl))
          /\ require_balanced (control tpl) = true
          /\ tolerance_amount (control tpl) = 0.01%Q)).
Proof.
  unfold load_active_template, read_rows.
  destruct (fetchone _) as [[t m]|]; [|discriminate].
  destruct (quoted_as_is (t_template_code t) && quoted_as_is (t_template_version t))
    eqn:Hq.
  2:{ intros H Hc Hv.
      destruct (read_spliced db (t_template_code t) (t_template_version t))
        as [[[ls cs] ctrl]|e]; [|discriminate H].
      cbn in H. injection H as <-. cbn in Hc, Hv. rewrite Hc, Hv in Hq.
      discriminate Hq. }
  unfold rows_by_equality. cbn [bind].
  intros H _ _. injection H as <-.
  cbn [lines conds control template_code template_version].
  split; [apply order_by_perm|]. split.
  { assert (Hs := order_by_sorted _ line_no_le line_no_le_total line_no_le_trans
                    (filter (same_template tl_template_code tl_template_version
                               (t_template_code t) (t_template_version t))
                       (template_lines db))).
    induction Hs as [|a l _ IH Ha]; constructor; [exact IH|].
    rewrite Forall_forall in Ha |- *. intros b Hb.
    apply Z.leb_le. exact (Ha b Hb). }
  split.
  { intros rec. rewrite (In_order_by _ line_no_le), filter_In, same_template_spec.
    reflexivity. }
  split.
  { intros c. rewrite filter_In, same_template_spec. reflexivity. }
  destruct (filter _ (template_controls db)) as [|c cs] eqn:E.
  - right. split; [|split; reflexivity].
    intros c Hc Hsame. apply same_template_spec in Hsame.
    assert (Hin : In c (filter (same_template ctl_template_code ctl_template_version
                                  (t_template_code t) (t_template_version t))
                          (template_controls db)))
      by (apply filter_In; split; assumption).
    rewrite E in Hin. contradiction.
  - left.
    assert (Hin : In c (filter (same_template ctl_template_code ctl_template_version
                                  (t_template_code t) (t_template_version t))
                          (template_controls db)))
      by (rewrite E; left; reflexivity).
    apply filter_In in Hin as [Hin Hsame]. apply same_template_spec in Hsame.
    split; [exact Hin|exact Hsame].
Qed.

Lemma loaded_bundle_example :
  map line_no (lines (MoreExamples.load_or_empty MoreExamples.rules_unordered)) = [1%Z; 2%Z]
  /\ StronglySorted (fun a b => (line_no a <= line_no b)%Z)
       (lines (MoreExamples.load_or_empty MoreExamples.rules_unordered)).
Proof.
  split; [reflexivity|].
  apply (loaded_bundle (read_spliced Model.runtime_model) MoreExamples.rules_unordered
           "PREMIUM_RECEIPT" "LIFE01" "AGENCY" Examples.oct5); reflexivity.
Defined.

End TemplatesCoverage.

(** ** posting.py: the period *)

Module PostingCoverage.
Import Engine Ledger.

(** X13. The posting period is the calendar month. For a month from 1 to 12, a
    date (whose month is from 1 to 12 and whose day is at least 1, as every
    date's are) lies in the half-open interval from [date(year, month, 1)] to that date plus one month exactly
    when it has that year and that month; December's interval ends on the
    first of January of the next year. *)
Theorem period_is_calendar_month (y m : nat) (d : date) :
  (1 <= m <= 12)%nat -> (1 <= month d <= 12)%nat -> (1 <= day d)%nat ->
  in_period (month_start y m) (month_end y m) d = true
  <-> year d = y /\ month d = m.
Proof.
  intros Hm Hdm Hd. destruct d as [dy dm dd]. cbn [day month] in Hd, Hdm.
  cbn [year month].
  unfold in_period, date_leb, date_ltb, date_eqb, month_start, month_end.
  destruct (Nat.eqb_spec m 12) as [->|Hne]; cbn [year month day];
    repeat (rewrite ?andb_true_iff, ?orb_true_iff, ?Nat.ltb_lt, ?Nat.eqb_eq); lia.
Qed.

Lemma period_is_calendar_month_example :
  in_period (month_start 2025 12) (month_end 2025 12) (mkdate 2025 12 31) = true
  <-> 2025%nat = 2025%nat /\ 12%nat = 12%nat.
Proof.
  apply (period_is_calendar_month 2025 12 (mkdate 2025 12 31)); simpl; lia.
Defined.

End PostingCoverage.

(** ** seed_txn_source.py, staging.py and run_month.py *)

Module PipelineCoverage.
Import Templates Engine Ledger Pipeline.

(** X14. The seed and the posting agree on the month. For a month from 1 to
    12, the first day of the next month as the seed computes it (by integer
    division and remainder) is the end of the posting period (the first day
    plus one month), and a generated date lies in the posting period exactly
    when the [txn_month] the seed gives it is the date the loader filters
    on. *)
Theorem seed_month_is_posting_month (y m : nat) :
  (1 <= m <= 12)%nat ->
  Seed.next_month y m = month_end y m
  /\ forall d, (1 <= month d <= 12)%nat -> (1 <= day d)%nat ->
       (in_period (month_start y m) (Seed.next_month y m) d = true
        <-> Seed.first_of_month d = month_start y m).
Proof.
  intros Hm.
  assert (E : Seed.next_month y m = month_end y m).
  { unfold Seed.next_month, month_end.
    destruct (Nat.eqb_spec m 12) as [->|Hne].
    - cbn. f_equal. lia.
    - rewrite Nat.div_small, Nat.mod_small by lia. f_equal; lia. }
  split; [exact E|]. intros d Hdm Hd. rewrite E.
  destruct d as [dy dm dd]. cbn [day month] in Hd, Hdm.
  unfold Seed.first_of_month. cbn [year month].
  assert (P : in_period (month_start y m) (month_end y m) (mkdate dy dm dd) = true
              <-> dy = y /\ dm = m).
  { unfold in_period, date_leb, date_ltb, date_eqb, month_start, month_end.
    destruct (Nat.eqb_spec m 12) as [->|Hne]; cbn [year month day];
      repeat (rewrite ?andb_true_iff, ?orb_true_iff, ?Nat.ltb_lt, ?Nat.eqb_eq); lia. }
  rewrite P. unfold month_start. split.
  - intros [-> ->]. reflexivity.
  - intros H. injection H as -> ->. split; reflexivity.
Qed.

Lemma seed_month_is_posting_month_example :
  Seed.next_month 2025 12 = mkdate 2026 1 1.
Proof.
  rewrite (proj1 (seed_month_is_posting_month 2025 12 ltac:(lia))). reflexivity.
Defined.






End PipelineCoverage.
